(** * Employee directory front-end: the data-fetching layer

    A shallow embedding of [src/services/services.ts]: the reconciliation of
    client-side and server-side pagination ([useEmployees]), the list of
    pages prefetched around the current one ([usePrefetchEmployees]), the
    encoding of the quick filter into the request path ([fetchEmployees]),
    and the three mutation hooks with the query cache they invalidate.

    JavaScript numbers that hold page indexes, page sizes and row counts are
    integers; they are modelled by [Z].  Timestamps are milliseconds, also in
    [Z].  A division by zero gives [Infinity] or [NaN] in JavaScript and [0]
    or the dividend in [Z]: every statement below that divides by
    [SERVER_PAGE_SIZE] assumes it positive. *)

From Stdlib Require Import Ascii String.
From stdpp Require Import base numbers list list_numbers strings pretty gmap.

Local Open Scope Z_scope.

(** ** The JavaScript primitives the service layer relies on *)

Module Js.

(** [Math.floor(a / b)] on integers. *)
Definition floor_div (a b : Z) : Z := a `div` b.

(** [Math.ceil(a / b)] on integers: the ceiling is the negated floor of the
    negated quotient. *)
Definition ceil_div (a b : Z) : Z := - ((- a) `div` b).

(** [a % b]: the remainder takes the sign of the dividend. *)
Definition remainder (a b : Z) : Z := a `rem` b.

(** [x || d] on numbers: [0] is falsy. *)
Definition or_else (x d : Z) : Z := if decide (x = 0) then d else x.

(** The relative index of [Array.prototype.slice]: a negative index counts
    from the end, and everything is clamped to [0 .. len]. *)
Definition clamp_index (len i : Z) : Z :=
  if decide (i < 0) then Z.max (len + i) 0 else Z.min i len.

(** [arr.slice(start, end)]. *)
Definition slice {A} (arr : list A) (start end_ : Z) : list A :=
  let len := Z.of_nat (length arr) in
  let k := clamp_index len start in
  let final := clamp_index len end_ in
  take (Z.to_nat (final - k)) (drop (Z.to_nat k) arr).

(** [arr.join(sep)] on an array of strings. *)
Definition join (sep : string) (arr : list string) : string :=
  String.concat sep arr.

(** [s.split(sep)] for a separator of one character: the pieces between the
    occurrences of [sep], of which there is always at least one. *)
Fixpoint split (sep : ascii) (s : string) : list string :=
  match s with
  | EmptyString => [EmptyString]
  | String c rest =>
      if Ascii.eqb c sep then EmptyString :: split sep rest
      else match split sep rest with
           | piece :: pieces => String c piece :: pieces
           | [] => [String c EmptyString]
           end
  end.

(** [s || d] on a string that may be [undefined]: [undefined] and the empty
    string are falsy. *)
Definition string_or_else (s : option string) (d : string) : string :=
  match s with
  | Some (String c rest) => String c rest
  | Some EmptyString | None => d
  end.

(** An optional string inside a template literal. *)
Definition template (s : option string) : string :=
  match s with
  | Some s => s
  | None => "undefined"
  end.

End Js.

(** ** Pagination on the client and on the server *)

(** The body of [GET /employees/page/...]: one page of rows and the number
    of rows of the whole sorted and filtered list. *)
Record GetEmployeesResponse (A : Type) := mkResponse {
  employees : list A;
  totalCount : Z;
}.
Arguments mkResponse {A} _ _.
Arguments employees {A} _.
Arguments totalCount {A} _.

Section Pagination.

(** [const SERVER_PAGE_SIZE = +import.meta.env.VITE_PAGE_LENGTH]: fixed by the
    deployment, so a parameter here. *)
Variable SERVER_PAGE_SIZE : Z.

(** [useEmployees]: page on server side to be fetched. *)
Definition pageOnServer (pageOnClient pageSizeOnClient : Z) : Z :=
  Js.floor_div (pageOnClient * pageSizeOnClient) SERVER_PAGE_SIZE.

(** [useEmployees]: the first row of the slice. *)
Definition sliceStart (pageOnClient pageSizeOnClient : Z) : Z :=
  Js.remainder (pageOnClient * pageSizeOnClient) SERVER_PAGE_SIZE.

(** [useEmployees]: the last row of the slice. *)
Definition sliceEnd (pageOnClient pageSizeOnClient : Z) : Z :=
  Js.or_else
    (Js.remainder ((pageOnClient + 1) * pageSizeOnClient) SERVER_PAGE_SIZE)
    SERVER_PAGE_SIZE.

(** [query.data?.employees?.slice(start, end)] on rows that are there. *)
Definition employeesSlice {A} (rows : list A)
    (pageOnClient pageSizeOnClient : Z) : list A :=
  Js.slice rows (sliceStart pageOnClient pageSizeOnClient)
                (sliceEnd pageOnClient pageSizeOnClient).

(** [useEmployees]: [dataPaginated].  [query.data] is [undefined] until the
    first response arrives; an array, even an empty one, is truthy, so the
    rows are replaced by their slice whenever there is a response. *)
Definition dataPaginated {A} (data : option (GetEmployeesResponse A))
    (pageOnClient pageSizeOnClient : Z) : option (GetEmployeesResponse A) :=
  match data with
  | Some d =>
      Some (mkResponse
              (employeesSlice (employees d) pageOnClient pageSizeOnClient)
              (totalCount d))
  | None => None
  end.

(** Modelled from the spec: the REST backend is not among the sources.  Its
    pages hold up to [SERVER_PAGE_SIZE] rows each and, put one after the other
    in index order, make up the full sorted and filtered list; every response
    carries the total count. *)
Definition serverPage {A} (full : list A) (page : Z)
    : GetEmployeesResponse A :=
  mkResponse
    (take (Z.to_nat SERVER_PAGE_SIZE)
          (drop (Z.to_nat (page * SERVER_PAGE_SIZE)) full))
    (Z.of_nat (length full)).

(** What [useEmployees] hands to the grid once the server answered. *)
Definition clientPage {A} (full : list A)
    (pageOnClient pageSizeOnClient : Z) : option (GetEmployeesResponse A) :=
  dataPaginated
    (Some (serverPage full (pageOnServer pageOnClient pageSizeOnClient)))
    pageOnClient pageSizeOnClient.

(** The rows of a client page, [[]] while there is no data. *)
Definition clientRows {A} (full : list A)
    (pageOnClient pageSizeOnClient : Z) : list A :=
  match clientPage full pageOnClient pageSizeOnClient with
  | Some d => employees d
  | None => []
  end.

(** The client pages [0 .. count - 1], one after the other. *)
Definition allClientRows {A} (full : list A) (pageSizeOnClient : Z)
    (count : nat) : list A :=
  concat (map (fun p => clientRows full (Z.of_nat p) pageSizeOnClient)
              (seq 0 count)).

End Pagination.

(** The reference the slices are compared with: single-tier pagination, where
    client page [p] of size [n] is the window of [n] rows of the full list
    that starts at row [p * n]. *)
Definition naiveWindow {A} (full : list A) (p n : Z) : list A :=
  take (Z.to_nat n) (drop (Z.to_nat (p * n)) full).

(** ** The pages to prefetch *)

(** [usePrefetchEmployees]: [lastPage]. *)
Definition lastPage (totalEmployees pageSize : Z) : Z :=
  Js.ceil_div totalEmployees pageSize - 1.

(** The body of both [for] loops: push [i] when the guard holds. *)
Definition pushIf (guard : Z -> bool) (acc : list Z) (i : Z) : list Z :=
  if guard i then acc ++ [i] else acc.

(** [usePrefetchEmployees]: [pagesToPrefetch], in the order of the pushes.
    The first loop runs [i] over [0, 1, 2, 3, 4], the second one over
    [lastPage, lastPage - 1, ..., lastPage - 4]. *)
Definition pagesToPrefetch (currentPage lastPage : Z) : list Z :=
  if decide (currentPage <= 3) then
    let pages :=
      foldl (pushIf (fun i => bool_decide (i <> currentPage)
                              && bool_decide (i <= lastPage)))
            [] (seqZ 0 5) in
    if decide (lastPage > 4) then pages ++ [lastPage] else pages
  else if decide (currentPage >= lastPage - 3) then
    let pages :=
      foldl (pushIf (fun i => bool_decide (i <> currentPage)
                              && bool_decide (i >= 0)))
            [] (reverse (seqZ (lastPage - 4) 5)) in
    if decide (lastPage - 4 > 0) then pages ++ [0] else pages
  else
    [currentPage - 1; currentPage + 1; 0; lastPage].

(** ** Query options and the request path *)

(** [GridSortDirection] of the data grid. *)
Inductive GridSortDirection := asc | desc | null | undefined.

Record GridSortItem := mkSortItem {
  field : string;
  sort : GridSortDirection;
}.

Record GridFilterModel := mkFilterModel {
  quickFilterValues : option (list string);
}.

Record QueryOptionsInterface := mkQueryOptions {
  sortModel : list GridSortItem;
  filterModel : GridFilterModel;
}.

(** [queryOptions.sortModel[0]?.field] *)
Definition sortingFieldOf (queryOptions : QueryOptionsInterface)
    : option string :=
  field <$> head (sortModel queryOptions).

(** [queryOptions.sortModel[0]?.sort] *)
Definition sortingOrderOf (queryOptions : QueryOptionsInterface)
    : GridSortDirection :=
  default undefined (sort <$> head (sortModel queryOptions)).

(** [quickFilterValues?.join('_')?.split('/')?.join('-')] *)
Definition filtersOf (queryOptions : QueryOptionsInterface) : option string :=
  (fun values => Js.join "-" (Js.split "/"%char (Js.join "_" values)))
    <$> quickFilterValues (filterModel queryOptions).

(** A sort direction inside a template literal. *)
Definition templateOrder (order : GridSortDirection) : string :=
  match order with
  | asc => "asc"
  | desc => "desc"
  | null => "null"
  | undefined => "undefined"
  end.

(** [fetchEmployees]: the last segment of the path. *)
Definition filterSegment (filters : option string) : string :=
  Js.string_or_else filters "noFilter".

(** [fetchEmployees]: the path of the GET request.  [ENDPOINTS.employees]
    comes from a module that is not among the sources, so it is an
    argument. *)
Definition fetchEmployeesPath (ENDPOINTS_employees : string) (page : Z)
    (sortingField : option string) (sortingOrder : GridSortDirection)
    (filters : option string) : string :=
  ENDPOINTS_employees +:+ "/page/" +:+ pretty page
    +:+ "/sort/" +:+ Js.template sortingField
    +:+ "/" +:+ templateOrder sortingOrder
    +:+ "/filters/" +:+ filterSegment filters.

(** Replacing every occurrence of one character by another: what
    [split(a).join(b)] amounts to. *)
Fixpoint replaceAll (a b : ascii) (s : string) : string :=
  match s with
  | EmptyString => EmptyString
  | String c rest =>
      String (if Ascii.eqb c a then b else c) (replaceAll a b rest)
  end.

(** ** The query cache *)

#[global] Instance GridSortDirection_eq_dec : EqDecision GridSortDirection.
Proof. solve_decision. Defined.

#[global] Instance GridSortDirection_countable : Countable GridSortDirection :=
  inj_countable'
    (fun d => match d with
              | asc => 0%nat | desc => 1%nat | null => 2%nat
              | undefined => 3%nat
              end)
    (fun n => match n with
              | 0%nat => asc | 1%nat => desc | 2%nat => null | _ => undefined
              end)
    (fun d => match d with
              | asc | desc | null | undefined => eq_refl
              end).

#[global] Instance GridSortItem_eq_dec : EqDecision GridSortItem.
Proof. solve_decision. Defined.

#[global] Instance GridSortItem_countable : Countable GridSortItem :=
  inj_countable'
    (fun i => (field i, sort i))
    (fun p => mkSortItem p.1 p.2)
    (fun i => match i with mkSortItem _ _ => eq_refl end).

#[global] Instance GridFilterModel_eq_dec : EqDecision GridFilterModel.
Proof. solve_decision. Defined.

#[global] Instance GridFilterModel_countable : Countable GridFilterModel :=
  inj_countable'
    quickFilterValues
    mkFilterModel
    (fun m => match m with mkFilterModel _ => eq_refl end).

#[global] Instance QueryOptionsInterface_eq_dec
  : EqDecision QueryOptionsInterface.
Proof. solve_decision. Defined.

#[global] Instance QueryOptionsInterface_countable
  : Countable QueryOptionsInterface :=
  inj_countable'
    (fun o => (sortModel o, filterModel o))
    (fun p => mkQueryOptions p.1 p.2)
    (fun o => match o with mkQueryOptions _ _ => eq_refl end).

(** A query key of this application:
    [['employees', pageOnServer, queryOptions]]. *)
Abbreviation QueryKey := (string * Z * QueryOptionsInterface)%type.

Section Services.

(** The row type, the payloads and the errors come from modules that are not
    among the sources; the services never look inside them, except for the
    [id] of an employee. *)
Context {Employee NewEmployee AxiosResponse Err : Type}.
Variable employee_id : Employee -> string.

(** Whatever the callers' callbacks act on. *)
Context {CallerState : Type}.

Variable SERVER_PAGE_SIZE : Z.
Variable ENDPOINTS_employees : string.

(** The calls that go through the HTTP client. *)
Inductive Request :=
  | GET (url : string)
  | POST (url : string) (body : NewEmployee)
  | PUT (url : string) (body : Employee)
  | DELETE (url : string).

(** What the query library keeps for a key that has data. *)
Record QueryState := mkQueryState {
  queryData : GetEmployeesResponse Employee;
  dataUpdatedAt : Z;
  isInvalidated : bool;
}.

(** The state the hooks act on: the query cache, the calls made so far in
    the order they were made, the state of the caller, and the query that
    [useEmployees], the one place where [useQuery] is called, observes while
    the list is on display with its query enabled, together with the path
    its query function requests. *)
Record World := mkWorld {
  cache : gmap QueryKey QueryState;
  network : list Request;
  caller : CallerState;
  observed : option (QueryKey * string);
}.

(** The backend, as far as GET requests go: the response to a path. *)
Variable server : string -> GetEmployeesResponse Employee.

(** The query library's staleness test: an entry is stale when it was
    invalidated or when [dataUpdatedAt + staleTime - now], floored at [0],
    is [0]. *)
Definition isStaleByTime (now staleTime : Z) (q : QueryState) : bool :=
  isInvalidated q
  || bool_decide (Z.max (dataUpdatedAt q + staleTime - now) 0 = 0).

(** One network call for a key; the response is stored with the time it
    arrived. *)
Definition fetch (now : Z) (key : QueryKey) (url : string) (w : World)
    : World :=
  mkWorld (<[key := mkQueryState (server url) now false]> (cache w))
          (network w ++ [GET url])
          (caller w)
          (observed w).

(** A key is fetched when it has no data or stale data, and is served from
    the cache otherwise. *)
Definition fetchIfStale (now : Z) (key : QueryKey) (url : string)
    (staleTime : Z) (w : World) : World :=
  match cache w !! key with
  | Some q => if isStaleByTime now staleTime q then fetch now key url w else w
  | None => fetch now key url w
  end.

(** [queryClient.prefetchQuery(key, fn, { staleTime })] *)
Definition prefetchQuery (now : Z) (key : QueryKey) (url : string)
    (staleTime : Z) (w : World) : World :=
  fetchIfStale now key url staleTime w.

(** The observer of [useQuery] turns to [key]: from now on this is the
    query on display, an active one when it is enabled. *)
Definition observe (key : QueryKey) (url : string) (enabled : bool)
    (w : World) : World :=
  mkWorld (cache w) (network w) (caller w)
          (if enabled then Some (key, url) else None).

(** [useQuery(key, fn, { staleTime, enabled })] when the hook starts to
    observe [key]: a disabled query never fetches. *)
Definition useQuery (now : Z) (key : QueryKey) (url : string)
    (staleTime : Z) (enabled : bool) (w : World) : World :=
  observe key url enabled
    (if enabled then fetchIfStale now key url staleTime w else w).

(** The first half of [invalidateQueries]: every entry whose key starts
    with [prefix] is marked invalidated. *)
Definition markInvalidated (prefix : string) (w : World) : World :=
  mkWorld
    (map_imap
       (fun (key : QueryKey) q =>
          Some (if decide (key.1.1 = prefix)
                then mkQueryState (queryData q) (dataUpdatedAt q) true
                else q))
       (cache w))
    (network w)
    (caller w)
    (observed w).

(** [queryClient.invalidateQueries([prefix])], called without a
    [refetchType]: the matching entries are marked invalidated, then the
    matching queries that are active, here the one on display if it
    matches, are fetched anew at once. *)
Definition invalidateQueries (now : Z) (prefix : string) (w : World)
    : World :=
  let marked := markInvalidated prefix w in
  match observed marked with
  | Some (key, url) =>
      if decide (key.1.1 = prefix) then fetch now key url marked else marked
  | None => marked
  end.

(** The path [fetchEmployees] requests for a server page under the given
    options, as both hooks call it. *)
Definition employeesUrl (page : Z) (queryOptions : QueryOptionsInterface)
    : string :=
  fetchEmployeesPath ENDPOINTS_employees page
    (sortingFieldOf queryOptions) (sortingOrderOf queryOptions)
    (filtersOf queryOptions).

(** [useEmployees]: the query it runs and the data it returns.  The option
    [keepPreviousData] only says what is shown while a response is awaited;
    here a response is stored by the step that asks for it. *)
Definition useEmployees (now : Z) (pageOnClient pageSizeOnClient : Z)
    (enabled : bool) (queryOptions : QueryOptionsInterface) (w : World)
    : World * option (GetEmployeesResponse Employee) :=
  let page := pageOnServer SERVER_PAGE_SIZE pageOnClient pageSizeOnClient in
  let key : QueryKey := ("employees"%string, page, queryOptions) in
  let w' := useQuery now key (employeesUrl page queryOptions) 5000 enabled w in
  (w',
   dataPaginated SERVER_PAGE_SIZE (queryData <$> cache w' !! key)
     pageOnClient pageSizeOnClient).

(** [usePrefetchEmployees]: the effect, one [prefetchQuery] per page to
    prefetch. *)
Definition usePrefetchEmployees (now : Z) (currentPage pageSize : Z)
    (totalEmployees : Z) (queryOptions : QueryOptionsInterface) (w : World)
    : World :=
  foldl
    (fun w page =>
       let pageOnServerToFetch :=
         pageOnServer SERVER_PAGE_SIZE page pageSize in
       prefetchQuery now
         ("employees"%string, pageOnServerToFetch, queryOptions)
         (employeesUrl pageOnServerToFetch queryOptions) 5000 w)
    w
    (pagesToPrefetch currentPage (lastPage totalEmployees pageSize)).

(** ** Mutations *)

(** An optional callback of the caller. *)
Definition Callback (A : Type) : Type :=
  option (A -> CallerState -> CallerState).

(** [if (cb) cb(a)] *)
Definition callIfGiven {A} (cb : Callback A) (a : A) (w : World) : World :=
  match cb with
  | Some f => mkWorld (cache w) (network w) (f a (caller w)) (observed w)
  | None => w
  end.

(** The options a hook passes to [useMutation].  [retry] is the number of
    further attempts after a failure, when the hook sets one; the handlers
    are given the time at which they run. *)
Record MutationOptions (V : Type) := mkMutation {
  mutationFn : V -> Request;
  retry : option nat;
  onSuccess : Z -> AxiosResponse -> V -> World -> World;
  onError : Err -> World -> World;
}.

(** How a call of a mutation function ended. *)
Inductive Outcome :=
  | Fulfilled (data : AxiosResponse)
  | Rejected (err : Err).

(** The attempts of a mutation: the request is sent, and sent again after a
    rejection as long as retries are left.  [outcomes k] is how attempt [k]
    ends. *)
Fixpoint attempts (retries : nat) (request : Request)
    (outcomes : nat -> Outcome) (attempt : nat) (w : World)
    : World * Outcome :=
  let w1 :=
    mkWorld (cache w) (network w ++ [request]) (caller w) (observed w) in
  match outcomes attempt, retries with
  | Rejected _, S retries' =>
      attempts retries' request outcomes (S attempt) w1
  | outcome, _ => (w1, outcome)
  end.

(** [mutation.mutate(variables)]: the attempts, of which there is one when
    no [retry] is set, then the handler that matches the last outcome. *)
Definition mutate {V} (options : MutationOptions V) (variables : V)
    (outcomes : nat -> Outcome) (now : Z) (w : World) : World :=
  let (w1, outcome) :=
    attempts (default 0%nat (retry V options))
      (mutationFn V options variables) outcomes 0%nat w in
  match outcome with
  | Fulfilled data => onSuccess V options now data variables w1
  | Rejected err => onError V options err w1
  end.

Definition useCreateEmployee (onSuccess : Callback AxiosResponse)
    (onError : Callback Err) : MutationOptions NewEmployee :=
  mkMutation NewEmployee
    (fun employee => POST "/employees" employee)
    None
    (fun now data _ w =>
       invalidateQueries now "employees" (callIfGiven onSuccess data w))
    (fun err w => callIfGiven onError err w).

Definition useDeleteEmployee (onSuccess : Callback string)
    (onError : Callback Err) : MutationOptions string :=
  mkMutation string
    (fun id => DELETE ("/employees/" +:+ id))
    None
    (fun now _data id w =>
       invalidateQueries now "employees" (callIfGiven onSuccess id w))
    (fun err w => callIfGiven onError err w).

Definition useUpdateEmployee (onSuccess : Callback Employee)
    (onError : Callback Err) : MutationOptions Employee :=
  mkMutation Employee
    (fun employee => PUT ("/employees/" +:+ employee_id employee) employee)
    None
    (fun now _data employee w =>
       invalidateQueries now "employees" (callIfGiven onSuccess employee w))
    (fun err w => callIfGiven onError err w).

End Services.

Arguments mkMutation {Employee NewEmployee AxiosResponse Err CallerState V}
  _ _ _ _.
Arguments mutationFn {Employee NewEmployee AxiosResponse Err CallerState V}
  _ _.
Arguments retry {Employee NewEmployee AxiosResponse Err CallerState V} _.
Arguments onSuccess {Employee NewEmployee AxiosResponse Err CallerState V}
  _ _ _ _ _.
Arguments onError {Employee NewEmployee AxiosResponse Err CallerState V}
  _ _ _.

(** ** The footer of the table *)

(** [ShowEntries]: the first row of the span on display. *)
Definition firstRow (page rowsPerPage : Z) : Z := page * rowsPerPage + 1.

(** [ShowEntries]: the last row of the span, which stops at the row count. *)
Definition lastRow (rowCount page rowsPerPage : Z) : Z :=
  let lastRow := (page + 1) * rowsPerPage in
  if decide (lastRow > rowCount) then rowCount else lastRow.

(** [ShowEntries]: the text under the table.  The page and the number of
    rows per page are read from the state of the grid. *)
Definition ShowEntries (rowCount page rowsPerPage : Z) : string :=
  if decide (rowCount = 0) then "Showing 0 entries"
  else "Showing " +:+ pretty (firstRow page rowsPerPage)
         +:+ " to " +:+ pretty (lastRow rowCount page rowsPerPage)
         +:+ " of " +:+ pretty rowCount +:+ " entries".

(** * Properties *)

(** ** The primitives *)

Lemma remainder_nonneg a b :
  0 <= a -> 0 < b -> Js.remainder a b = a `mod` b.
Proof. intros. unfold Js.remainder. by apply Z.rem_mod_nonneg. Qed.

(** With indexes in order and not negative, [slice] is [take] after
    [drop]; a short array cuts the result short. *)
Lemma slice_take_drop {A} (arr : list A) (a b : Z) :
  0 <= a <= b ->
  Js.slice arr a b = take (Z.to_nat (b - a)) (drop (Z.to_nat a) arr).
Proof.
  intros Hab. unfold Js.slice, Js.clamp_index.
  repeat case_decide; try lia.
  destruct (decide (b <= Z.of_nat (length arr))) as [Hin | Hout].
  - by rewrite !Z.min_l by lia.
  - destruct (decide (a <= Z.of_nat (length arr))) as [Ha | Ha].
    + rewrite (Z.min_l a) by lia. rewrite (Z.min_r b) by lia.
      rewrite !take_ge; [done | rewrite length_drop; lia ..].
    + rewrite !drop_ge by lia. by rewrite !take_nil.
Qed.

(** An end before the start gives the empty array. *)
Lemma slice_backwards {A} (arr : list A) (a b : Z) :
  0 <= b <= a -> Js.slice arr a b = [].
Proof.
  intros Hab. unfold Js.slice, Js.clamp_index.
  repeat case_decide; try lia.
  replace (Z.to_nat _) with 0%nat by lia. done.
Qed.

(** ** Where the window of a client page lies *)

Section Window.

Variable S : Z.
Hypothesis S_pos : 0 < S.

Lemma sliceStart_mod p n :
  0 <= p -> 0 <= n -> sliceStart S p n = (p * n) `mod` S.
Proof. intros. unfold sliceStart. apply remainder_nonneg; lia. Qed.

Lemma sliceEnd_mod p n :
  0 <= p -> 0 <= n ->
  sliceEnd S p n =
    if decide (((p + 1) * n) `mod` S = 0) then S else ((p + 1) * n) `mod` S.
Proof.
  intros. unfold sliceEnd, Js.or_else.
  rewrite remainder_nonneg by lia. done.
Qed.

Lemma sliceStart_bounds p n :
  0 <= p -> 0 <= n -> 0 <= sliceStart S p n < S.
Proof.
  intros. rewrite sliceStart_mod by done. apply Z.mod_pos_bound. done.
Qed.

Lemma sliceEnd_bounds p n :
  0 <= p -> 0 <= n -> 0 < sliceEnd S p n <= S.
Proof.
  intros. rewrite sliceEnd_mod by done.
  pose proof (Z.mod_pos_bound ((p + 1) * n) S S_pos).
  case_decide; lia.
Qed.

(** When the client page size divides the server page size, the window of a
    client page never crosses the end of a server page. *)
Lemma divisor_window p n :
  0 < n -> (n | S) -> 0 <= p ->
  p * n = S * pageOnServer S p n + sliceStart S p n
  /\ sliceEnd S p n = sliceStart S p n + n
  /\ sliceStart S p n + n <= S.
Proof.
  intros Hn [c Hc] Hp.
  rewrite sliceEnd_mod, sliceStart_mod by lia.
  unfold pageOnServer, Js.floor_div.
  pose proof (Z.div_mod (p * n) S ltac:(lia)) as Hdm.
  pose proof (Z.mod_pos_bound (p * n) S S_pos) as Hr.
  set (q := (p * n) `div` S) in *. set (r := (p * n) `mod` S) in *.
  assert (Hrn : r = (p - c * q) * n) by (rewrite Hc in Hdm; lia).
  assert (Hm : p - c * q < c) by nia.
  assert (Hle : r + n <= S) by nia.
  split; [done |]. split; [| done].
  destruct (decide (r + n = S)) as [Heq | Hne].
  - replace ((p + 1) * n) with (0 + (q + 1) * S) by lia.
    rewrite Z.mod_add by lia. rewrite Z.mod_0_l by lia.
    case_decide; lia.
  - replace ((p + 1) * n) with ((r + n) + q * S) by lia.
    rewrite Z.mod_add by lia. rewrite Z.mod_small by lia.
    case_decide; lia.
Qed.

(** The rows [a .. a + n) of a server page are the rows at the same distance
    from its first row in the full list, as long as they end within the
    page. *)
Lemma serverPage_rows {A} (full : list A) (q a n : Z) :
  0 <= q -> 0 <= a -> 0 <= n -> a + n <= S ->
  take (Z.to_nat n) (drop (Z.to_nat a) (employees (serverPage S full q)))
  = take (Z.to_nat n) (drop (Z.to_nat (S * q + a)) full).
Proof.
  intros Hq Ha Hn Hle. simpl.
  rewrite skipn_firstn_comm, take_take, drop_drop.
  f_equal; [lia |]. f_equal. lia.
Qed.

End Window.

(** Whenever the computed end is [pageSizeOnClient] rows after the computed
    start, the slice of the fetched server page is the window that
    single-tier pagination would show. *)
Lemma clientRows_window {A} (S : Z) (full : list A) (p n : Z) :
  0 < S -> 0 <= p -> 0 <= n ->
  sliceEnd S p n = sliceStart S p n + n ->
  clientRows S full p n = naiveWindow full p n.
Proof.
  intros HS Hp Hn Hend.
  pose proof (sliceStart_bounds S HS p n Hp Hn) as Hs.
  pose proof (sliceEnd_bounds S HS p n Hp Hn) as He.
  unfold clientRows, clientPage, dataPaginated, employeesSlice.
  cbn [employees].
  rewrite slice_take_drop by lia.
  replace (sliceEnd S p n - sliceStart S p n) with n by lia.
  assert (Hq : 0 <= pageOnServer S p n).
  { unfold pageOnServer, Js.floor_div. apply Z.div_pos; nia. }
  rewrite serverPage_rows by lia.
  unfold naiveWindow. do 3 f_equal.
  rewrite sliceStart_mod by done. unfold pageOnServer, Js.floor_div.
  symmetry. apply Z.div_mod. lia.
Qed.

(** The windows of the first [count] pages of single-tier pagination, one
    after the other, are the first [count * n] rows. *)
Lemma naiveWindow_concat {A} (full : list A) (n : Z) (count : nat) :
  0 <= n ->
  concat (map (fun p => naiveWindow full (Z.of_nat p) n) (seq 0 count))
  = take (Z.to_nat (Z.of_nat count * n)) full.
Proof.
  intros Hn. induction count as [| count IH].
  - done.
  - rewrite seq_S, map_app, concat_app, IH. cbn [map concat Nat.add].
    rewrite app_nil_r. unfold naiveWindow.
    rewrite take_take_drop. f_equal. lia.
Qed.

Lemma allClientRows_ext {A} (S : Z) (full : list A) (n : Z) (count : nat)
    (f : Z -> list A) :
  (forall p, 0 <= p -> clientRows S full p n = f p) ->
  allClientRows S full n count
  = concat (map (fun p => f (Z.of_nat p)) (seq 0 count)).
Proof.
  intros Hf. unfold allClientRows. f_equal.
  apply map_ext. intros p. apply Hf. lia.
Qed.

(** With server pages of 25 rows and client pages of 10, two client pages
    out of five end where the arithmetic expects, two more end on the
    server page boundary, and the fifth starts at row 20 of its server page
    and is given the end 5. *)
Lemma clientRows_25_10 {A} (full : list A) (p : Z) :
  0 <= p ->
  clientRows 25 full p 10
  = if decide (p `mod` 5 = 2) then [] else naiveWindow full p 10.
Proof.
  intros Hp. case_decide as Hmod.
  - unfold clientRows, clientPage, dataPaginated, employeesSlice.
    cbn [employees]. apply slice_backwards.
    rewrite sliceStart_mod, sliceEnd_mod by lia.
    case_decide; Z.div_mod_to_equations; lia.
  - apply clientRows_window; [lia .. |].
    rewrite sliceStart_mod, sliceEnd_mod by lia.
    case_decide; Z.div_mod_to_equations; lia.
Qed.

(** ** Client pages against single-tier pagination *)

(** C1.  For every client page size [n] that is at most [SERVER_PAGE_SIZE]
    and divides it, and every client page index [p >= 0], fetching server
    page [floor (p * n / SERVER_PAGE_SIZE)] and slicing it from
    [(p * n) mod SERVER_PAGE_SIZE] to [((p + 1) * n) mod SERVER_PAGE_SIZE]
    (with [0] replaced by [SERVER_PAGE_SIZE]) gives exactly the window of
    [n] rows of the full list that starts at row [p * n]; the window has
    all of its [n] rows whenever the list reaches that far. *)
Theorem clientRows_divisor_window {A} (S : Z) (full : list A) (p n : Z) :
  0 < n -> n <= S -> (n | S) -> 0 <= p ->
  clientRows S full p n = naiveWindow full p n
  /\ (forall i a, full !! (Z.to_nat (p * n) + i)%nat = Some a ->
                  (i < Z.to_nat n)%nat ->
                  clientRows S full p n !! i = Some a)
  /\ ((p + 1) * n <= Z.of_nat (length full) ->
      Z.of_nat (length (clientRows S full p n)) = n).
Proof.
  intros Hn HnS Hdiv Hp.
  assert (HS : 0 < S) by lia.
  destruct (divisor_window S HS p n Hn Hdiv Hp) as (_ & Hend & _).
  assert (Heq : clientRows S full p n = naiveWindow full p n)
    by (apply clientRows_window; lia).
  rewrite Heq. unfold naiveWindow. split; [done |]. split.
  - intros i a Hi Hlt. rewrite lookup_take_lt by done.
    by rewrite lookup_drop.
  - intros Hlen. rewrite length_take, length_drop. nia.
Qed.

Lemma clientRows_divisor_window_witness :
  clientRows 25 (seqZ 100 60) 7 5 = naiveWindow (seqZ 100 60) 7 5
  /\ (forall i a, seqZ 100 60 !! (Z.to_nat (7 * 5) + i)%nat = Some a ->
                  (i < Z.to_nat 5)%nat ->
                  clientRows 25 (seqZ 100 60) 7 5 !! i = Some a)
  /\ ((7 + 1) * 5 <= Z.of_nat (length (seqZ 100 60)) ->
      Z.of_nat (length (clientRows 25 (seqZ 100 60) 7 5)) = 5).
Proof.
  apply (clientRows_divisor_window 25 (seqZ 100 60) 7 5);
    [lia | lia | by exists 5 | lia].
Defined.

(** Every client page size that divides the server page size gives back
    the full list, page after page. *)
Lemma allClientRows_divisor {A} (S : Z) (full : list A) (n : Z)
    (count : nat) :
  0 < n -> 0 < S -> (n | S) ->
  allClientRows S full n count = take (Z.to_nat (Z.of_nat count * n)) full.
Proof.
  intros Hn HS Hdiv.
  rewrite (allClientRows_ext S full n count (fun p => naiveWindow full p n)).
  - apply naiveWindow_concat. lia.
  - intros p Hp. apply clientRows_window; [lia .. |].
    by destruct (divisor_window S HS p n Hn Hdiv Hp) as (_ & Hend & _).
Qed.

(** C2, as stated, fails: with server pages of 25 rows, client pages of 10
    and a list of 30 rows, client pages 0 to 2 (2 is the last page) put one
    after the other are not the list: rows 20 to 29 are missing. *)
Lemma roundtrip_25_10_has_gap :
  Z.to_nat (lastPage 30 10 + 1) = 3%nat
  /\ allClientRows 25 (seqZ 0 30) 10 3 = seqZ 0 20
  /\ allClientRows 25 (seqZ 0 30) 10 3 <> seqZ 0 30.
Proof.
  split; [done |]. split; [by vm_compute |].
  intros H. apply (f_equal length) in H. vm_compute in H. discriminate.
Qed.

(** C2, amended.  With server pages of 25 rows and client pages of 10, the
    client pages [0 .. count - 1] put one after the other are, in order, the
    windows of the full list except those of the pages whose index is 2
    modulo 5: these straddle two server pages and come back empty, so rows
    are missing but none is repeated.  With client pages of 5 rows, which
    divide 25, the pages put one after the other are the first [5 * count]
    rows of the list, hence the whole list once [count] covers it. *)
Theorem roundtrip_25 {A} (full : list A) (count : nat) :
  allClientRows 25 full 10 count
  = concat (map (fun p => if decide (Z.of_nat p `mod` 5 = 2) then []
                          else naiveWindow full (Z.of_nat p) 10)
                (seq 0 count))
  /\ allClientRows 25 full 5 count
     = take (Z.to_nat (Z.of_nat count * 5)) full.
Proof.
  split.
  - unfold allClientRows. f_equal. apply map_ext. intros p.
    apply clientRows_25_10. lia.
  - apply allClientRows_divisor; [lia | lia | by exists 5].
Qed.

(** ** The server page and the slice *)

(** C3.  For a client page index [p >= 0] and a client page size [n >= 0],
    the server page that is fetched is [floor (p * n / SERVER_PAGE_SIZE)]:
    it is the one integer [q] with
    [SERVER_PAGE_SIZE * q <= p * n < SERVER_PAGE_SIZE * (q + 1)].  When the
    client page size is [SERVER_PAGE_SIZE], the server page is the client
    page. *)
Theorem pageOnServer_floor (S p n : Z) :
  0 < S -> 0 <= p -> 0 <= n ->
  (forall q, S * q <= p * n < S * (q + 1) <-> q = pageOnServer S p n)
  /\ pageOnServer S p S = p.
Proof.
  intros HS Hp Hn. unfold pageOnServer, Js.floor_div. split.
  - intros q. split.
    + intros Hq. apply (Z.div_unique _ _ q (p * n - S * q)); lia.
    + intros ->. pose proof (Z.div_mod (p * n) S ltac:(lia)).
      pose proof (Z.mod_pos_bound (p * n) S HS). lia.
  - apply Z.div_mul. lia.
Qed.

Lemma pageOnServer_floor_witness :
  (forall q, 25 * q <= 7 * 10 < 25 * (q + 1) <-> q = pageOnServer 25 7 10)
  /\ pageOnServer 25 7 25 = 7.
Proof. apply (pageOnServer_floor 25 7 10); lia. Defined.

(** C4.  The slice of a server page is [rows.slice(start, end)] with
    [start = (p * n) mod SERVER_PAGE_SIZE] and
    [end = ((p + 1) * n) mod SERVER_PAGE_SIZE], where an end of [0] is
    replaced by [SERVER_PAGE_SIZE].  When the modulo is [0], the slice
    therefore runs from [start] to the end of the server page, and it is
    not empty as soon as the page has a row at [start].  When the page holds
    fewer rows than [end], the slice stops at the last row of the page. *)
Theorem employeesSlice_bounds {A} (S : Z) (rows : list A) (p n : Z) :
  0 < S -> 0 <= p -> 0 <= n -> Z.of_nat (length rows) <= S ->
  let start := (p * n) `mod` S in
  let modulo := ((p + 1) * n) `mod` S in
  let end_ := if decide (modulo = 0) then S else modulo in
  employeesSlice S rows p n = Js.slice rows start end_
  /\ (modulo = 0 ->
      employeesSlice S rows p n = Js.slice rows start S
      /\ employeesSlice S rows p n = drop (Z.to_nat start) rows
      /\ (start < Z.of_nat (length rows) -> employeesSlice S rows p n <> []))
  /\ (Z.of_nat (length rows) < end_ ->
      employeesSlice S rows p n = drop (Z.to_nat start) rows).
Proof.
  intros HS Hp Hn Hlen start modulo end_.
  assert (Hslice : employeesSlice S rows p n = Js.slice rows start end_).
  { unfold employeesSlice. by rewrite sliceStart_mod, sliceEnd_mod. }
  pose proof (Z.mod_pos_bound (p * n) S HS) as Hstart.
  pose proof (Z.mod_pos_bound ((p + 1) * n) S HS) as Hmod.
  fold start in Hstart. fold modulo in Hmod.
  assert (Hshort : Z.of_nat (length rows) <= end_ ->
                   Js.slice rows start end_ = drop (Z.to_nat start) rows).
  { intros Hle.
    assert (Hpos : 0 < end_) by (subst end_; case_decide; lia).
    unfold Js.slice, Js.clamp_index.
    rewrite (decide_False (P := start < 0)) by lia.
    rewrite (decide_False (P := end_ < 0)) by lia.
    rewrite (Z.min_r end_) by lia.
    destruct (decide (start <= Z.of_nat (length rows))).
    - rewrite Z.min_l by lia. apply take_ge. rewrite length_drop. lia.
    - rewrite Z.min_r by lia. rewrite !drop_ge by lia. by rewrite take_nil. }
  split; [done |]. split.
  - intros Hzero.
    assert (Hend : end_ = S) by (subst end_; case_decide; lia).
    rewrite Hslice, Hend in *. split; [done |].
    split; [apply Hshort; lia |].
    intros Hrow. rewrite Hshort by lia.
    intros Hnil. apply (f_equal length) in Hnil.
    rewrite length_drop in Hnil. simpl in Hnil. lia.
  - intros Hlt. rewrite Hslice. apply Hshort. lia.
Qed.

Lemma employeesSlice_bounds_witness :
  let start := (4 * 5) `mod` 25 in
  let modulo := ((4 + 1) * 5) `mod` 25 in
  let end_ := if decide (modulo = 0) then 25 else modulo in
  employeesSlice 25 (seqZ 100 23) 4 5 = Js.slice (seqZ 100 23) start end_
  /\ (modulo = 0 ->
      employeesSlice 25 (seqZ 100 23) 4 5 = Js.slice (seqZ 100 23) start 25
      /\ employeesSlice 25 (seqZ 100 23) 4 5
         = drop (Z.to_nat start) (seqZ 100 23)
      /\ (start < Z.of_nat (length (seqZ 100 23)) ->
          employeesSlice 25 (seqZ 100 23) 4 5 <> []))
  /\ (Z.of_nat (length (seqZ 100 23)) < end_ ->
      employeesSlice 25 (seqZ 100 23) 4 5
      = drop (Z.to_nat start) (seqZ 100 23)).
Proof.
  apply (employeesSlice_bounds 25 (seqZ 100 23) 4 5); [lia | lia | lia |].
  vm_compute. discriminate.
Defined.

(** ** The pages to prefetch *)

(** A loop that pushes under a guard filters the values it runs over. *)
Lemma foldl_pushIf (guard : Z -> bool) (acc l : list Z) :
  foldl (pushIf guard) acc l = acc ++ filter (fun i => guard i) l.
Proof.
  revert acc. induction l as [| i l IH]; intros acc.
  - by rewrite filter_nil, app_nil_r.
  - cbn [foldl]. rewrite IH. unfold pushIf.
    destruct (guard i) eqn:Hg.
    + rewrite filter_cons_True by (cbn beta; by rewrite Hg).
      by rewrite <- app_assoc.
    + rewrite filter_cons_False by (cbn beta; rewrite Hg; intros []).
      done.
Qed.

Lemma countdown_from (last : Z) :
  reverse (seqZ (last - 4) 5) = [last; last - 1; last - 2; last - 3; last - 4].
Proof.
  unfold seqZ. change (Z.to_nat 5) with 5%nat.
  cbn [seq fmap list_fmap]. unfold reverse. cbn [rev_append].
  repeat (f_equal; try lia).
Qed.

(** Near the start. *)
Lemma pagesToPrefetch_start (currentPage last : Z) :
  currentPage <= 3 ->
  pagesToPrefetch currentPage last
  = filter (fun i => i <> currentPage /\ i <= last) [0; 1; 2; 3; 4]
    ++ (if decide (last > 4) then [last] else []).
Proof.
  intros Hcur. unfold pagesToPrefetch.
  rewrite decide_True by done. rewrite foldl_pushIf. cbn [app].
  replace (seqZ 0 5) with [0; 1; 2; 3; 4] by done.
  rewrite (list_filter_iff _ (fun i => i <> currentPage /\ i <= last)).
  - case_decide; [done | by rewrite app_nil_r].
  - intros i. rewrite andb_True, !bool_decide_spec. done.
Qed.

(** Near the end. *)
Lemma pagesToPrefetch_end (currentPage last : Z) :
  3 < currentPage -> last - 3 <= currentPage ->
  pagesToPrefetch currentPage last
  = filter (fun i => i <> currentPage /\ 0 <= i)
           [last; last - 1; last - 2; last - 3; last - 4]
    ++ (if decide (last - 4 > 0) then [0] else []).
Proof.
  intros Hcur Hlast. unfold pagesToPrefetch.
  rewrite decide_False by lia. rewrite decide_True by lia.
  rewrite foldl_pushIf, countdown_from. cbn [app].
  rewrite (list_filter_iff _ (fun i => i <> currentPage /\ 0 <= i)).
  - case_decide; [done | by rewrite app_nil_r].
  - intros i. rewrite andb_True, !bool_decide_spec. lia.
Qed.

(** In the middle. *)
Lemma pagesToPrefetch_middle (currentPage last : Z) :
  3 < currentPage -> currentPage < last - 3 ->
  pagesToPrefetch currentPage last
  = [currentPage - 1; currentPage + 1; 0; last].
Proof.
  intros Hcur Hlast. unfold pagesToPrefetch.
  rewrite decide_False by lia. by rewrite decide_False by lia.
Qed.

(** C6.  For a current page that is at most 3 and any last page, the pages
    to prefetch are the pages 0 to 4 without the current page and without
    the pages after the last one, followed by the last page when it is
    greater than 4; for last page 10 and current page 1 they are
    0, 2, 3, 4 and 10. *)
Theorem pagesToPrefetch_near_start (currentPage last : Z) :
  currentPage <= 3 ->
  pagesToPrefetch currentPage last
  = filter (fun i => i <> currentPage /\ i <= last) [0; 1; 2; 3; 4]
    ++ (if decide (last > 4) then [last] else [])
  /\ (forall x, x ∈ pagesToPrefetch currentPage last
                <-> (0 <= x <= 4 /\ x <> currentPage /\ x <= last)
                    \/ (x = last /\ last > 4))
  /\ pagesToPrefetch 1 10 = [0; 2; 3; 4; 10].
Proof.
  intros Hcur. split; [by apply pagesToPrefetch_start |]. split; [| done].
  intros x. rewrite pagesToPrefetch_start by done.
  rewrite elem_of_app, list_elem_of_filter.
  replace [0; 1; 2; 3; 4] with (seqZ 0 5) by done.
  rewrite elem_of_seqZ.
  case_decide; [rewrite list_elem_of_singleton | rewrite elem_of_nil]; lia.
Qed.

Lemma pagesToPrefetch_near_start_witness :
  pagesToPrefetch 2 3
  = filter (fun i => i <> 2 /\ i <= 3) [0; 1; 2; 3; 4]
    ++ (if decide (3 > 4) then [3] else [])
  /\ (forall x, x ∈ pagesToPrefetch 2 3
                <-> (0 <= x <= 4 /\ x <> 2 /\ x <= 3) \/ (x = 3 /\ 3 > 4))
  /\ pagesToPrefetch 1 10 = [0; 2; 3; 4; 10].
Proof. apply (pagesToPrefetch_near_start 2 3). lia. Defined.

(** C7.  For a current page strictly between 3 and the last page minus 3,
    the pages to prefetch are exactly the previous page, the next page,
    page 0 and the last page; for current page 5 and last page 10 they
    are 4, 6, 0 and 10. *)
Theorem pagesToPrefetch_in_the_middle (currentPage last : Z) :
  3 < currentPage < last - 3 ->
  pagesToPrefetch currentPage last
  = [currentPage - 1; currentPage + 1; 0; last]
  /\ (forall x, x ∈ pagesToPrefetch currentPage last
                <-> x = currentPage - 1 \/ x = currentPage + 1
                    \/ x = 0 \/ x = last)
  /\ pagesToPrefetch 5 10 = [4; 6; 0; 10].
Proof.
  intros [Hlo Hhi]. rewrite pagesToPrefetch_middle by done.
  split; [done |]. split; [| done].
  intros x. rewrite !elem_of_cons, elem_of_nil. tauto.
Qed.

Lemma pagesToPrefetch_in_the_middle_witness :
  pagesToPrefetch 6 12 = [6 - 1; 6 + 1; 0; 12]
  /\ (forall x, x ∈ pagesToPrefetch 6 12
                <-> x = 6 - 1 \/ x = 6 + 1 \/ x = 0 \/ x = 12)
  /\ pagesToPrefetch 5 10 = [4; 6; 0; 10].
Proof. apply (pagesToPrefetch_in_the_middle 6 12). lia. Defined.

(** Which pages are prefetched, zone by zone. *)
Lemma elem_of_pagesToPrefetch (currentPage last x : Z) :
  x ∈ pagesToPrefetch currentPage last
  <-> (currentPage <= 3
       /\ ((0 <= x <= 4 /\ x <> currentPage /\ x <= last)
           \/ (x = last /\ last > 4)))
      \/ (3 < currentPage /\ last - 3 <= currentPage
          /\ ((last - 4 <= x <= last /\ x <> currentPage /\ 0 <= x)
              \/ (x = 0 /\ last - 4 > 0)))
      \/ (3 < currentPage < last - 3
          /\ (x = currentPage - 1 \/ x = currentPage + 1
              \/ x = 0 \/ x = last)).
Proof.
  destruct (decide (currentPage <= 3)) as [Hstart | Hstart].
  - rewrite pagesToPrefetch_start by done.
    rewrite elem_of_app, list_elem_of_filter.
    replace [0; 1; 2; 3; 4] with (seqZ 0 5) by done.
    rewrite elem_of_seqZ.
    case_decide; [rewrite list_elem_of_singleton | rewrite elem_of_nil]; lia.
  - destruct (decide (last - 3 <= currentPage)) as [Hend | Hend].
    + rewrite pagesToPrefetch_end by lia.
      rewrite elem_of_app, list_elem_of_filter.
      rewrite <- countdown_from, elem_of_reverse, elem_of_seqZ.
      case_decide; [rewrite list_elem_of_singleton | rewrite elem_of_nil];
        lia.
    + rewrite pagesToPrefetch_middle by lia.
      rewrite !elem_of_cons, elem_of_nil. lia.
Qed.

Lemma NoDup_pagesToPrefetch (currentPage last : Z) :
  NoDup (pagesToPrefetch currentPage last).
Proof.
  destruct (decide (currentPage <= 3)) as [Hstart | Hstart].
  - rewrite pagesToPrefetch_start by done.
    apply NoDup_app. split; [| split].
    + apply NoDup_filter. replace [0; 1; 2; 3; 4] with (seqZ 0 5) by done.
      apply NoDup_seqZ.
    + intros x. rewrite list_elem_of_filter.
      replace [0; 1; 2; 3; 4] with (seqZ 0 5) by done.
      rewrite elem_of_seqZ.
      case_decide; [rewrite list_elem_of_singleton | rewrite elem_of_nil];
        lia.
    + case_decide; [apply NoDup_singleton | apply NoDup_nil_2].
  - destruct (decide (last - 3 <= currentPage)) as [Hend | Hend].
    + rewrite pagesToPrefetch_end by lia.
      apply NoDup_app. split; [| split].
      * apply NoDup_filter. rewrite <- countdown_from.
        rewrite reverse_Permutation. apply NoDup_seqZ.
      * intros x. rewrite list_elem_of_filter.
        rewrite <- countdown_from, elem_of_reverse, elem_of_seqZ.
        case_decide; [rewrite list_elem_of_singleton | rewrite elem_of_nil];
          lia.
      * case_decide; [apply NoDup_singleton | apply NoDup_nil_2].
    + rewrite pagesToPrefetch_middle by lia.
      repeat (apply NoDup_cons; split;
              [rewrite ?elem_of_cons, elem_of_nil; lia |]).
      apply NoDup_nil_2.
Qed.

(** C10.  For a current page between 0 and the last page, the list of pages
    to prefetch does not contain the current page, has no page twice, and
    holds only pages between 0 and the last page.  When there is no
    employee, so that the last page is negative, the list is empty. *)
Theorem pagesToPrefetch_invariant (currentPage last : Z) :
  (last < 0 -> pagesToPrefetch currentPage last = [])
  /\ (0 <= currentPage <= last ->
      (currentPage ∉ pagesToPrefetch currentPage last)
      /\ NoDup (pagesToPrefetch currentPage last)
      /\ (forall x, x ∈ pagesToPrefetch currentPage last -> 0 <= x <= last)).
Proof.
  split.
  - intros Hempty. apply elem_of_nil_inv. intros x.
    rewrite elem_of_pagesToPrefetch. lia.
  - intros Hcur. split; [| split].
    + rewrite elem_of_pagesToPrefetch. lia.
    + apply NoDup_pagesToPrefetch.
    + intros x. rewrite elem_of_pagesToPrefetch. lia.
Qed.

Lemma pagesToPrefetch_invariant_witness :
  pagesToPrefetch 0 (lastPage 0 10) = []
  /\ (8 ∉ pagesToPrefetch 8 10)
  /\ NoDup (pagesToPrefetch 8 10)
  /\ (forall x, x ∈ pagesToPrefetch 8 10 -> 0 <= x <= 10).
Proof.
  split.
  - apply (proj1 (pagesToPrefetch_invariant 0 (lastPage 0 10))).
    vm_compute. done.
  - apply (proj2 (pagesToPrefetch_invariant 8 10)). lia.
Defined.

(** ** The filter in the request path *)

Lemma split_cons (sep : ascii) (s : string) :
  exists piece pieces, Js.split sep s = piece :: pieces.
Proof.
  induction s as [| c rest (piece & pieces & IH)]; cbn [Js.split].
  - by eexists _, _.
  - destruct (Ascii.eqb c sep); [by eexists _, _ |].
    rewrite IH. by eexists _, _.
Qed.

Lemma join_cons_cons (sep x y : string) (l : list string) :
  Js.join sep (x :: y :: l) = x +:+ sep +:+ Js.join sep (y :: l).
Proof. done. Qed.

Lemma join_push_char (sep : string) (c : ascii) (x : string)
    (l : list string) :
  Js.join sep (String c x :: l) = String c (Js.join sep (x :: l)).
Proof. destruct l; done. Qed.

(** Splitting at one character and joining with another replaces every
    occurrence of the first by the second. *)
Lemma split_join_replaceAll (a b : ascii) (s : string) :
  Js.join (String b EmptyString) (Js.split a s) = replaceAll a b s.
Proof.
  induction s as [| c rest IH]; cbn [Js.split replaceAll]; [done |].
  destruct (split_cons a rest) as (piece & pieces & Hsplit).
  rewrite Hsplit in *.
  destruct (Ascii.eqb c a).
  - rewrite join_cons_cons, IH. done.
  - rewrite join_push_char, IH. done.
Qed.

Lemma replaceAll_app (a b : ascii) (s t : string) :
  replaceAll a b (s +:+ t) = replaceAll a b s +:+ replaceAll a b t.
Proof.
  induction s as [| c rest IH]; simpl; [done |].
  by rewrite IH.
Qed.

(** Replacing slashes in the joined tokens is joining the tokens with their
    slashes replaced: the separator has no slash. *)
Lemma replaceAll_join (tokens : list string) :
  replaceAll "/" "-" (Js.join "_" tokens)
  = Js.join "_" (replaceAll "/" "-" <$> tokens).
Proof.
  induction tokens as [| x [| y l] IH]; [done | done |].
  change (replaceAll "/" "-" <$> x :: y :: l)
    with (replaceAll "/" "-" x :: replaceAll "/" "-" y
            :: (replaceAll "/" "-" <$> l)).
  rewrite !join_cons_cons, !replaceAll_app.
  f_equal. f_equal. exact IH.
Qed.

(** C5.  The filter string handed to [fetchEmployees] is the tokens of the
    quick filter joined by ['_'], with every ['/'] replaced by ['-']; it is
    the last segment of the request path unless it is empty.  Without
    filters, be it that there are no quick filter values or that their list
    is empty, the last segment of the request path is [noFilter].  The path
    so built is the one of the GET that [useEmployees] sends when the page
    is not in the cache. *)
Theorem filters_in_request_path (sorting : list GridSortItem)
    (tokens : list string) (ENDPOINTS_employees : string) (page : Z) :
  let withFilters := mkQueryOptions sorting (mkFilterModel (Some tokens)) in
  let noValues := mkQueryOptions sorting (mkFilterModel None) in
  let emptyValues := mkQueryOptions sorting (mkFilterModel (Some [])) in
  let encoded := replaceAll "/" "-" (Js.join "_" tokens) in
  filtersOf withFilters = Some encoded
  /\ encoded = Js.join "_" (replaceAll "/" "-" <$> tokens)
  /\ filterSegment (filtersOf withFilters)
     = (if decide (encoded = EmptyString) then "noFilter"%string else encoded)
  /\ filterSegment (filtersOf noValues) = "noFilter"%string
  /\ filterSegment (filtersOf emptyValues) = "noFilter"%string
  /\ employeesUrl ENDPOINTS_employees page noValues
     = ENDPOINTS_employees +:+ "/page/" +:+ pretty page
       +:+ "/sort/" +:+ Js.template (sortingFieldOf noValues)
       +:+ "/" +:+ templateOrder (sortingOrderOf noValues)
       +:+ "/filters/noFilter"
  /\ employeesUrl ENDPOINTS_employees page emptyValues
     = employeesUrl ENDPOINTS_employees page noValues
  /\ employeesUrl ENDPOINTS_employees page withFilters
     = ENDPOINTS_employees +:+ "/page/" +:+ pretty page
       +:+ "/sort/" +:+ Js.template (sortingFieldOf withFilters)
       +:+ "/" +:+ templateOrder (sortingOrderOf withFilters)
       +:+ "/filters/"
       +:+ (if decide (encoded = EmptyString) then "noFilter"%string
            else encoded)
  /\ (forall (Employee NewEmployee CallerState : Type)
             (server : string -> GetEmployeesResponse Employee)
             (SERVER_PAGE_SIZE now p n : Z)
             (sent : list (@Request Employee NewEmployee))
             (state : CallerState) (shown : option (QueryKey * string)),
        network
          (useEmployees SERVER_PAGE_SIZE ENDPOINTS_employees server now p n
             true withFilters (mkWorld ∅ sent state shown)).1
        = sent
            ++ [GET (ENDPOINTS_employees +:+ "/page/"
                     +:+ pretty (pageOnServer SERVER_PAGE_SIZE p n)
                     +:+ "/sort/" +:+ Js.template (sortingFieldOf withFilters)
                     +:+ "/" +:+ templateOrder (sortingOrderOf withFilters)
                     +:+ "/filters/"
                     +:+ (if decide (encoded = EmptyString)
                          then "noFilter"%string else encoded))]).
Proof.
  intros withFilters noValues emptyValues encoded.
  assert (Hfilters : filtersOf withFilters = Some encoded).
  { unfold filtersOf, withFilters, encoded.
    cbn [filterModel quickFilterValues fmap option_fmap option_map].
    f_equal. apply (split_join_replaceAll "/" "-"). }
  assert (Hsegment : filterSegment (filtersOf withFilters)
                     = (if decide (encoded = EmptyString)
                        then "noFilter"%string else encoded)).
  { rewrite Hfilters. unfold filterSegment, Js.string_or_else.
    destruct encoded; [done |]. by rewrite decide_False. }
  assert (Hurl : forall served,
             employeesUrl ENDPOINTS_employees served withFilters
             = ENDPOINTS_employees +:+ "/page/" +:+ pretty served
               +:+ "/sort/" +:+ Js.template (sortingFieldOf withFilters)
               +:+ "/" +:+ templateOrder (sortingOrderOf withFilters)
               +:+ "/filters/"
               +:+ (if decide (encoded = EmptyString)
                    then "noFilter"%string else encoded)).
  { intros served. unfold employeesUrl, fetchEmployeesPath.
    by rewrite Hsegment. }
  split; [done |]. split; [apply replaceAll_join |].
  split; [done |]. split; [done |]. split; [done |]. split; [done |].
  split; [done |]. split; [apply Hurl |].
  intros Employee NewEmployee CallerState server SERVER_PAGE_SIZE now p n
    sent state shown.
  unfold useEmployees, useQuery, fetchIfStale.
  cbn [cache]. rewrite lookup_empty. cbn [fst observe fetch network].
  by rewrite Hurl.
Qed.

(** ** The query cache *)

Section Cache.

Context {Employee NewEmployee CallerState : Type}.
Variable server : string -> GetEmployeesResponse Employee.

Implicit Types w : @World Employee NewEmployee CallerState.
Implicit Types key : QueryKey.


Lemma fetch_lookup now key url w :
  cache (fetch server now key url w) !! key
  = Some (mkQueryState (server url) now false).
Proof. apply lookup_insert_eq. Qed.

Lemma fetch_lookup_ne now key key' url w :
  key <> key' ->
  cache (fetch server now key url w) !! key' = cache w !! key'.
Proof. intros. by apply lookup_insert_ne. Qed.

(** No data for the key: the network is called. *)
Lemma fetchIfStale_absent now key url staleTime w :
  cache w !! key = None ->
  fetchIfStale server now key url staleTime w = fetch server now key url w.
Proof. intros Hnone. unfold fetchIfStale. by rewrite Hnone. Qed.

(** Data that is younger than [staleTime] and was not invalidated: the cache
    answers, nothing changes. *)
Lemma fetchIfStale_fresh now key url staleTime w q :
  cache w !! key = Some q -> isInvalidated q = false ->
  now < dataUpdatedAt q + staleTime ->
  fetchIfStale server now key url staleTime w = w.
Proof.
  intros Hq Hvalid Hfresh. unfold fetchIfStale, isStaleByTime.
  rewrite Hq, Hvalid. cbn [orb].
  by rewrite bool_decide_eq_false_2 by lia.
Qed.


(** Invalidated data: the network is called, whatever the age. *)
Lemma fetchIfStale_invalidated now key url staleTime w q :
  cache w !! key = Some q -> isInvalidated q = true ->
  fetchIfStale server now key url staleTime w = fetch server now key url w.
Proof.
  intros Hq Hinv. unfold fetchIfStale, isStaleByTime. by rewrite Hq, Hinv.
Qed.

Lemma markInvalidated_lookup prefix (page : Z)
    (queryOptions : QueryOptionsInterface) w :
  cache (markInvalidated prefix w) !! (prefix, page, queryOptions)
  = (fun q => mkQueryState (queryData q) (dataUpdatedAt q) true)
      <$> cache w !! (prefix, page, queryOptions).
Proof.
  unfold markInvalidated. cbn [cache]. rewrite map_lookup_imap.
  destruct (cache w !! (prefix, page, queryOptions)) as [q |]; [| done].
  cbn. by rewrite decide_True.
Qed.

(** After [invalidateQueries], the query on display has the response of its
    refetch, and every other matching entry is marked invalidated. *)
Lemma invalidateQueries_lookup now prefix (page : Z)
    (queryOptions : QueryOptionsInterface) w :
  cache (invalidateQueries server now prefix w)
    !! (prefix, page, queryOptions)
  = match observed w with
    | Some (key, url) =>
        if decide (key = (prefix, page, queryOptions))
        then Some (mkQueryState (server url) now false)
        else (fun q => mkQueryState (queryData q) (dataUpdatedAt q) true)
               <$> cache w !! (prefix, page, queryOptions)
    | None =>
        (fun q => mkQueryState (queryData q) (dataUpdatedAt q) true)
          <$> cache w !! (prefix, page, queryOptions)
    end.
Proof.
  unfold invalidateQueries. cbn [markInvalidated observed].
  destruct (observed w) as [[key url] |];
    [| apply markInvalidated_lookup].
  destruct (decide (key = (prefix, page, queryOptions))) as [-> | Hne].
  - cbn [fst]. rewrite decide_True by done. apply fetch_lookup.
  - case_decide.
    + rewrite fetch_lookup_ne by done. apply markInvalidated_lookup.
    + apply markInvalidated_lookup.
Qed.

(** [invalidateQueries] calls the network for the query on display, if it
    matches, and for nothing else. *)
Lemma invalidateQueries_network now prefix w :
  network (invalidateQueries server now prefix w)
  = network w
      ++ match observed w with
         | Some (key, url) =>
             if decide (key.1.1 = prefix) then [GET url] else []
         | None => []
         end.
Proof.
  unfold invalidateQueries. cbn [markInvalidated observed].
  destruct (observed w) as [[key url] |]; [| by rewrite app_nil_r].
  case_decide; [done | by rewrite app_nil_r].
Qed.

Lemma invalidateQueries_caller now prefix w :
  caller (invalidateQueries server now prefix w) = caller w.
Proof.
  unfold invalidateQueries. cbn [markInvalidated observed].
  destruct (observed w) as [[key url] |]; [| done]. by case_decide.
Qed.

Lemma invalidateQueries_observed now prefix w :
  observed (invalidateQueries server now prefix w) = observed w.
Proof.
  unfold invalidateQueries. cbn [markInvalidated observed].
  destruct (observed w) as [[key url] |] eqn:Hobserved; [| done].
  by case_decide.
Qed.

End Cache.

Section Validity.

Context {Employee NewEmployee CallerState : Type}.
Variable SERVER_PAGE_SIZE : Z.
Variable ENDPOINTS_employees : string.
Variable server : string -> GetEmployeesResponse Employee.

Implicit Types w : @World Employee NewEmployee CallerState.


End Validity.


(** ** Mutations *)

Section Mutations.

Context {Employee NewEmployee AxiosResponse Err CallerState : Type}.
Variable employee_id : Employee -> string.
Variable server : string -> GetEmployeesResponse Employee.

Implicit Types w : @World Employee NewEmployee CallerState.

Lemma callIfGiven_cache {A} (cb : Callback A) (a : A) w :
  cache (callIfGiven cb a w) = cache w.
Proof. by destruct cb. Qed.

Lemma callIfGiven_network {A} (cb : Callback A) (a : A) w :
  network (callIfGiven cb a w) = network w.
Proof. by destruct cb. Qed.

Lemma callIfGiven_caller {A} (cb : Callback A) (a : A) w :
  caller (callIfGiven cb a w)
  = match cb with Some f => f a (caller w) | None => caller w end.
Proof. by destruct cb. Qed.

Lemma callIfGiven_observed {A} (cb : Callback A) (a : A) w :
  observed (callIfGiven cb a w) = observed w.
Proof. by destruct cb. Qed.

(** The shape the three hooks share: no [retry], one request, then on
    success the callback and the invalidation, on failure the callback
    alone. *)
Lemma mutate_fulfilled {V A} (request : V -> Request)
    (arg : AxiosResponse -> V -> A) (given : Callback A)
    (failed : Callback Err) (v : V) (data : AxiosResponse)
    (later : nat -> Outcome) (now : Z) w :
  let w' :=
    mutate
      (mkMutation request None
         (fun now d x w => invalidateQueries server now "employees"
                             (callIfGiven given (arg d x) w))
         (fun e w => callIfGiven failed e w))
      v
      (fun k => match k with O => Fulfilled data | S k' => later k' end)
      now w in
  network w'
  = network w ++ [request v]
      ++ match observed w with
         | Some (key, url) =>
             if decide (key.1.1 = "employees"%string) then [GET url] else []
         | None => []
         end
  /\ (forall page queryOptions,
        cache w' !! ("employees"%string, page, queryOptions)
        = match observed w with
          | Some (key, url) =>
              if decide (key = ("employees"%string, page, queryOptions))
              then Some (mkQueryState (server url) now false)
              else (fun q => mkQueryState (queryData q) (dataUpdatedAt q) true)
                     <$> cache w !! ("employees"%string, page, queryOptions)
          | None =>
              (fun q => mkQueryState (queryData q) (dataUpdatedAt q) true)
                <$> cache w !! ("employees"%string, page, queryOptions)
          end)
  /\ caller w'
     = match given with
       | Some f => f (arg data v) (caller w)
       | None => caller w
       end
  /\ observed w' = observed w.
Proof.
  cbn zeta. unfold mutate.
  cbn [retry default attempts mutationFn onSuccess from_option].
  split; [| split; [| split]].
  - rewrite invalidateQueries_network, callIfGiven_network,
      callIfGiven_observed. cbn [network observed].
    by rewrite <- app_assoc.
  - intros page queryOptions.
    rewrite invalidateQueries_lookup, callIfGiven_observed,
      callIfGiven_cache. done.
  - by rewrite invalidateQueries_caller, callIfGiven_caller.
  - by rewrite invalidateQueries_observed, callIfGiven_observed.
Qed.

Lemma mutate_rejected {V}
    (options : @MutationOptions Employee NewEmployee AxiosResponse Err
                                CallerState V)
    (failed : Callback Err) (v : V) (err : Err)
    (later : nat -> Outcome) (now : Z) w :
  retry options = None ->
  onError options = (fun e w => callIfGiven failed e w) ->
  let w' :=
    mutate options v
      (fun k => match k with O => Rejected err | S k' => later k' end)
      now w in
  network w' = network w ++ [mutationFn options v]
  /\ cache w' = cache w
  /\ caller w'
     = match failed with Some f => f err (caller w) | None => caller w end
  /\ observed w' = observed w.
Proof.
  intros Hretry Hfail. cbn zeta. unfold mutate. rewrite Hretry, Hfail.
  cbn [default attempts from_option].
  by rewrite callIfGiven_network, callIfGiven_cache, callIfGiven_caller,
    callIfGiven_observed.
Qed.


End Mutations.


(** * Further properties of the services *)

(** ** More on the slice *)

Lemma slice_length {A} (arr : list A) (a b : Z) :
  0 <= a -> 0 <= b ->
  Z.of_nat (length (Js.slice arr a b)) <= Z.max (b - a) 0.
Proof.
  intros Ha Hb. unfold Js.slice, Js.clamp_index.
  rewrite !decide_False by lia. rewrite length_take, length_drop. lia.
Qed.

Lemma slice_infix {A} (arr : list A) (a b : Z) :
  exists before after, arr = before ++ Js.slice arr a b ++ after.
Proof.
  unfold Js.slice.
  set (k := Z.to_nat (Js.clamp_index _ a)).
  set (m := Z.to_nat (_ - _)).
  exists (take k arr), (drop m (drop k arr)).
  by rewrite (take_drop m), (take_drop k).
Qed.

(** The end that [useEmployees] computes, from the start: one client page
    further, reduced modulo the server page size. *)
Lemma sliceEnd_from_start (S p n : Z) :
  0 < S -> 0 <= p -> 0 <= n ->
  ((p + 1) * n) `mod` S = (sliceStart S p n + n) `mod` S.
Proof.
  intros HS Hp Hn. rewrite sliceStart_mod by done.
  replace ((p + 1) * n) with (p * n + n) by lia.
  by rewrite <- Zplus_mod_idemp_l.
Qed.

(** X1.  With a client page size of at most [SERVER_PAGE_SIZE], a client
    page is served exactly when its window ends within the server page it
    starts in; a client page whose window crosses the end of that server
    page comes back empty. *)
Theorem clientRows_fits_or_empty {A} (S : Z) (full : list A) (p n : Z) :
  0 < n -> n <= S -> 0 <= p ->
  clientRows S full p n
  = if decide ((p * n) `mod` S + n <= S) then naiveWindow full p n else [].
Proof.
  intros Hn HnS Hp. assert (HS : 0 < S) by lia.
  pose proof (sliceStart_bounds S HS p n Hp ltac:(lia)) as Hstart.
  pose proof (sliceEnd_from_start S p n HS Hp ltac:(lia)) as Hend.
  rewrite <- sliceStart_mod by lia.
  case_decide as Hfit.
  - apply clientRows_window; [lia .. |].
    rewrite sliceEnd_mod by lia. rewrite Hend.
    destruct (decide (sliceStart S p n + n = S)) as [-> | Hne].
    + rewrite Z.mod_same by lia. by rewrite decide_True.
    + rewrite Z.mod_small by lia. rewrite decide_False by lia. done.
  - unfold clientRows, clientPage, dataPaginated, employeesSlice.
    cbn [employees]. apply slice_backwards.
    rewrite sliceEnd_mod by lia. rewrite Hend.
    replace (sliceStart S p n + n)
      with ((sliceStart S p n + n - S) + 1 * S) by lia.
    rewrite Z.mod_add by lia. rewrite Z.mod_small by lia.
    rewrite decide_False by lia. lia.
Qed.

Lemma clientRows_fits_or_empty_witness :
  clientRows 25 (seqZ 0 60) 2 10
  = if decide ((2 * 10) `mod` 25 + 10 <= 25)
    then naiveWindow (seqZ 0 60) 2 10 else [].
Proof. apply (clientRows_fits_or_empty 25 (seqZ 0 60) 2 10); lia. Defined.

(** X2.  With a client page size that is a multiple of [SERVER_PAGE_SIZE],
    a client page gets the first [SERVER_PAGE_SIZE] rows of its window and
    no more: a single server page is fetched. *)
Theorem clientRows_multiple {A} (S : Z) (full : list A) (p n : Z) :
  0 < S -> 0 < n -> (S | n) -> 0 <= p ->
  clientRows S full p n = take (Z.to_nat S) (naiveWindow full p n).
Proof.
  intros HS Hn [k Hk] Hp.
  assert (Hstart : sliceStart S p n = 0).
  { rewrite sliceStart_mod by lia. subst n.
    rewrite Z.mul_assoc. apply Z.mod_mul. lia. }
  assert (Hend : sliceEnd S p n = S).
  { rewrite sliceEnd_mod by lia. subst n.
    rewrite Z.mul_assoc, Z.mod_mul by lia. by rewrite decide_True. }
  assert (Hpage : pageOnServer S p n = p * k).
  { unfold pageOnServer, Js.floor_div. subst n.
    rewrite Z.mul_assoc. apply Z.div_mul. lia. }
  unfold clientRows, clientPage, dataPaginated, employeesSlice.
  cbn [employees]. rewrite Hstart, Hend, Hpage.
  rewrite slice_take_drop by lia. cbn [serverPage employees].
  rewrite Z.sub_0_r. change (Z.to_nat 0) with 0%nat. rewrite drop_0.
  unfold naiveWindow. rewrite !take_take.
  assert (Hk1 : 1 <= k) by nia.
  assert (HSn : S <= n) by nia.
  f_equal; [lia |]. f_equal. f_equal. subst n. lia.
Qed.

Lemma clientRows_multiple_witness :
  clientRows 25 (seqZ 0 120) 1 50
  = take (Z.to_nat 25) (naiveWindow (seqZ 0 120) 1 50).
Proof.
  apply (clientRows_multiple 25 (seqZ 0 120) 1 50);
    [lia | lia | by exists 2 | lia].
Defined.

(** X3.  Whatever the server page holds, the slice handed to the grid is a
    run of consecutive rows of it, and it has at most as many rows as the
    client page size and at most [SERVER_PAGE_SIZE] rows. *)
Theorem employeesSlice_within {A} (S : Z) (rows : list A) (p n : Z) :
  0 < S -> 0 <= p -> 0 < n ->
  (exists before after,
     rows = before ++ employeesSlice S rows p n ++ after)
  /\ Z.of_nat (length (employeesSlice S rows p n)) <= Z.min n S.
Proof.
  intros HS Hp Hn. split; [apply slice_infix |].
  pose proof (sliceStart_bounds S HS p n Hp ltac:(lia)) as Hstart.
  pose proof (sliceEnd_bounds S HS p n Hp ltac:(lia)) as Hend.
  pose proof (slice_length rows (sliceStart S p n) (sliceEnd S p n)
                ltac:(lia) ltac:(lia)) as Hlen.
  fold (employeesSlice S rows p n) in Hlen.
  assert (Hspan : sliceEnd S p n - sliceStart S p n <= n).
  { rewrite sliceEnd_mod by lia.
    rewrite (sliceEnd_from_start S p n) by lia.
    destruct (decide (sliceStart S p n + n < S)) as [Hsmall | Hbig].
    - rewrite Z.mod_small by lia. rewrite decide_False by lia. lia.
    - pose proof (Z.mod_pos_bound (sliceStart S p n + n) S HS).
      pose proof (Z.mod_le (sliceStart S p n + n) S ltac:(lia) HS).
      case_decide; lia. }
  lia.
Qed.

Lemma employeesSlice_within_witness :
  (exists before after,
     seqZ 0 25 = before ++ employeesSlice 25 (seqZ 0 25) 3 10 ++ after)
  /\ Z.of_nat (length (employeesSlice 25 (seqZ 0 25) 3 10)) <= Z.min 10 25.
Proof. apply (employeesSlice_within 25 (seqZ 0 25) 3 10); lia. Defined.

(** X4.  With a client page size of at most [SERVER_PAGE_SIZE], the next
    client page is in the same server page or in the next one, and the
    server page never goes down when the client page goes up. *)
Theorem pageOnServer_step (S p n : Z) :
  0 < S -> 0 <= p -> 0 <= n -> n <= S ->
  pageOnServer S p n <= pageOnServer S (p + 1) n <= pageOnServer S p n + 1
  /\ (forall p', p <= p' -> pageOnServer S p n <= pageOnServer S p' n).
Proof.
  intros HS Hp Hn HnS. unfold pageOnServer, Js.floor_div. split.
  - replace ((p + 1) * n) with (p * n + n) by lia. split.
    + apply Z.div_le_mono; lia.
    + replace ((p * n) `div` S + 1) with ((p * n + 1 * S) `div` S)
        by (rewrite Z.div_add; lia).
      apply Z.div_le_mono; lia.
  - intros p' Hle. apply Z.div_le_mono; [lia | nia].
Qed.

Lemma pageOnServer_step_witness :
  pageOnServer 25 2 10 <= pageOnServer 25 (2 + 1) 10
                       <= pageOnServer 25 2 10 + 1
  /\ (forall p', 2 <= p' -> pageOnServer 25 2 10 <= pageOnServer 25 p' 10).
Proof. apply (pageOnServer_step 25 2 10); lia. Defined.

(** ** More on the pages to prefetch *)

(** X5.  [lastPage] is the index of the last client page that has rows:
    the full list reaches beyond the start of that page and not beyond its
    end, so that page is not empty when there are rows at all, and the page
    after it is empty. *)
Theorem lastPage_is_last {A} (full : list A) (n : Z) :
  0 < n ->
  let last := lastPage (Z.of_nat (length full)) n in
  last * n < Z.of_nat (length full) <= (last + 1) * n
  /\ (full <> [] -> 0 <= last /\ naiveWindow full last n <> [])
  /\ naiveWindow full (last + 1) n = [].
Proof.
  intros Hn last.
  assert (Hbounds : last * n < Z.of_nat (length full) <= (last + 1) * n).
  { unfold last, lastPage, Js.ceil_div. Z.div_mod_to_equations. nia. }
  split; [done |]. split.
  - intros Hrows.
    assert (Hlen : 0 < Z.of_nat (length full))
      by (destruct full; [done | cbn; lia]).
    assert (Hlast : 0 <= last) by nia.
    split; [done |]. intros Hnil. apply (f_equal length) in Hnil.
    unfold naiveWindow in Hnil.
    rewrite length_take, length_drop in Hnil. cbn [length] in Hnil. lia.
  - unfold naiveWindow. rewrite drop_ge by lia. apply take_nil.
Qed.

Lemma lastPage_is_last_witness :
  let last := lastPage (Z.of_nat (length (seqZ 0 42))) 10 in
  last * 10 < Z.of_nat (length (seqZ 0 42)) <= (last + 1) * 10
  /\ (seqZ 0 42 <> [] -> 0 <= last /\ naiveWindow (seqZ 0 42) last 10 <> [])
  /\ naiveWindow (seqZ 0 42) (last + 1) 10 = [].
Proof. apply (lastPage_is_last (seqZ 0 42) 10). lia. Defined.

(** X6.  For a current page after page 3 that is at most three pages before
    the last one, the pages to prefetch are the last five pages, from the
    last one down, without the current page and without negative indexes,
    followed by page 0 when the last page is greater than 4. *)
Theorem pagesToPrefetch_near_end (currentPage last : Z) :
  3 < currentPage -> last - 3 <= currentPage ->
  pagesToPrefetch currentPage last
  = filter (fun i => i <> currentPage /\ 0 <= i)
           [last; last - 1; last - 2; last - 3; last - 4]
    ++ (if decide (last - 4 > 0) then [0] else [])
  /\ (forall x, x ∈ pagesToPrefetch currentPage last
                <-> (last - 4 <= x <= last /\ x <> currentPage /\ 0 <= x)
                    \/ (x = 0 /\ 4 < last)).
Proof.
  intros Hcur Hlast. split; [by apply pagesToPrefetch_end |].
  intros x. rewrite elem_of_pagesToPrefetch. lia.
Qed.

Lemma pagesToPrefetch_near_end_witness :
  pagesToPrefetch 9 10
  = filter (fun i => i <> 9 /\ 0 <= i) [10; 10 - 1; 10 - 2; 10 - 3; 10 - 4]
    ++ (if decide (10 - 4 > 0) then [0] else [])
  /\ (forall x, x ∈ pagesToPrefetch 9 10
                <-> (10 - 4 <= x <= 10 /\ x <> 9 /\ 0 <= x)
                    \/ (x = 0 /\ 4 < 10)).
Proof. apply (pagesToPrefetch_near_end 9 10); lia. Defined.

(** X7.  The pages one click away from the current page, that is the first,
    the last, the previous and the next page, are always among the pages to
    prefetch. *)
Theorem pagesToPrefetch_reachable (currentPage last x : Z) :
  0 <= currentPage <= last ->
  0 <= x <= last -> x <> currentPage ->
  x = 0 \/ x = last \/ x = currentPage - 1 \/ x = currentPage + 1 ->
  x ∈ pagesToPrefetch currentPage last.
Proof.
  intros Hcur Hx Hne Hreach. rewrite elem_of_pagesToPrefetch. lia.
Qed.

Lemma pagesToPrefetch_reachable_witness : 7 ∈ pagesToPrefetch 8 20.
Proof. apply (pagesToPrefetch_reachable 8 20 7); lia. Defined.

(** X8.  For a current page between 0 and the last page, nothing is
    prefetched exactly when the list has a single page. *)
Theorem pagesToPrefetch_nil_iff (currentPage last : Z) :
  0 <= currentPage <= last ->
  pagesToPrefetch currentPage last = [] <-> last = 0.
Proof.
  intros Hcur. split.
  - intros Hnil. destruct (decide (last = 0)) as [| Hne]; [done |].
    assert (Hin : (if decide (currentPage = 0) then 1 else 0)
                    ∈ pagesToPrefetch currentPage last).
    { rewrite elem_of_pagesToPrefetch. case_decide; lia. }
    rewrite Hnil in Hin. by apply elem_of_nil in Hin.
  - intros ->. apply elem_of_nil_inv. intros x.
    rewrite elem_of_pagesToPrefetch. lia.
Qed.

Lemma pagesToPrefetch_nil_iff_witness :
  pagesToPrefetch 0 0 = [] <-> 0 = 0.
Proof. apply (pagesToPrefetch_nil_iff 0 0). lia. Defined.

Lemma length_pagesToPrefetch (currentPage last : Z) :
  0 <= currentPage <= last ->
  Z.of_nat (length (pagesToPrefetch currentPage last)) <= 5.
Proof.
  intros Hcur.
  destruct (decide (currentPage <= 3)) as [Hstart | Hstart].
  - rewrite pagesToPrefetch_start by done. rewrite length_app.
    pose proof (length_filter_lt (fun i => i <> currentPage /\ i <= last)
                  [0; 1; 2; 3; 4] currentPage) as Hlt.
    cbn [length] in Hlt.
    assert (Hin : currentPage ∈ [0; 1; 2; 3; 4]).
    { replace [0; 1; 2; 3; 4] with (seqZ 0 5) by done.
      apply elem_of_seqZ. lia. }
    specialize (Hlt Hin ltac:(lia)).
    case_decide; cbn [length]; lia.
  - destruct (decide (last - 3 <= currentPage)) as [Hend | Hend].
    + rewrite pagesToPrefetch_end by lia. rewrite length_app.
      pose proof (length_filter_lt (fun i => i <> currentPage /\ 0 <= i)
                    [last; last - 1; last - 2; last - 3; last - 4]
                    currentPage) as Hlt.
      cbn [length] in Hlt.
      assert (Hin : currentPage
                      ∈ [last; last - 1; last - 2; last - 3; last - 4]).
      { rewrite <- countdown_from, elem_of_reverse, elem_of_seqZ. lia. }
      specialize (Hlt Hin ltac:(lia)).
      case_decide; cbn [length]; lia.
    + rewrite pagesToPrefetch_middle by lia. cbn [length]. lia.
Qed.

(** X9.  For a current page between 0 and the last page, at most five
    pages are prefetched. *)
Theorem pagesToPrefetch_at_most_five (currentPage last : Z) :
  0 <= currentPage <= last ->
  Z.of_nat (length (pagesToPrefetch currentPage last)) <= 5.
Proof. apply length_pagesToPrefetch. Qed.

Lemma pagesToPrefetch_at_most_five_witness :
  Z.of_nat (length (pagesToPrefetch 2 40)) <= 5.
Proof. apply (pagesToPrefetch_at_most_five 2 40). lia. Defined.

(** ** Prefetching and the cache *)

Section Prefetching.

Context {Employee NewEmployee CallerState : Type}.
Variable server : string -> GetEmployeesResponse Employee.
Variables (now staleTime : Z).
Hypothesis staleTime_pos : 0 < staleTime.

Implicit Types w : @World Employee NewEmployee CallerState.
Implicit Types key : QueryKey.

(** An entry that is not stale is served as it is. *)
Lemma fetchIfStale_not_stale key url w q :
  cache w !! key = Some q -> isStaleByTime now staleTime q = false ->
  fetchIfStale server now key url staleTime w = w.
Proof. intros Hq Hfresh. unfold fetchIfStale. by rewrite Hq, Hfresh. Qed.

(** After a request for a key, its entry is not stale. *)
Lemma fetchIfStale_fresh_after key url w :
  isStaleByTime now staleTime
    <$> cache (fetchIfStale server now key url staleTime w) !! key
  = Some false.
Proof.
  assert (Hnew : isStaleByTime now staleTime
                   (mkQueryState (server url) now false) = false).
  { unfold isStaleByTime. cbn. apply bool_decide_eq_false_2. lia. }
  unfold fetchIfStale.
  destruct (cache w !! key) as [q |] eqn:Hq.
  - destruct (isStaleByTime now staleTime q) eqn:Hstale.
    + rewrite fetch_lookup. exact (f_equal Some Hnew).
    + rewrite Hq. exact (f_equal Some Hstale).
  - rewrite fetch_lookup. exact (f_equal Some Hnew).
Qed.

(** A request leaves the entries that are not stale as they are, under
    every key. *)
Lemma fetchIfStale_keeps key url w key' q :
  cache w !! key' = Some q -> isStaleByTime now staleTime q = false ->
  cache (fetchIfStale server now key url staleTime w) !! key' = Some q.
Proof.
  intros Hq Hfresh. destruct (decide (key = key')) as [-> | Hne].
  - by rewrite (fetchIfStale_not_stale _ _ _ q).
  - unfold fetchIfStale.
    destruct (cache w !! key) as [q0 |]; [destruct (isStaleByTime _ _ q0) |];
      rewrite ?fetch_lookup_ne; done.
Qed.

(** A request leaves the keys it is not for without data, if they were. *)
Lemma fetchIfStale_keeps_none key url w key' :
  key <> key' -> cache w !! key' = None ->
  cache (fetchIfStale server now key url staleTime w) !! key' = None.
Proof.
  intros Hne Hnone. unfold fetchIfStale.
  destruct (cache w !! key) as [q0 |]; [destruct (isStaleByTime _ _ q0) |];
    rewrite ?fetch_lookup_ne; done.
Qed.

(** A request makes at most one call, a GET of its path, and leaves the
    caller alone. *)
Lemma fetchIfStale_network key url w :
  (network (fetchIfStale server now key url staleTime w) = network w
   \/ network (fetchIfStale server now key url staleTime w)
      = network w ++ [GET url])
  /\ caller (fetchIfStale server now key url staleTime w) = caller w.
Proof.
  unfold fetchIfStale.
  destruct (cache w !! key) as [q0 |]; [destruct (isStaleByTime _ _ q0) |];
    auto.
Qed.

(** One request after the other, for the keys and paths of a list of pages. *)
Variable keyOf : Z -> QueryKey.
Variable urlOf : Z -> string.

Local Abbreviation requests start pages :=
  (foldl (fun acc page =>
            prefetchQuery server now (keyOf page) (urlOf page) staleTime acc)
         start pages).

Lemma requests_keep pages w key q :
  cache w !! key = Some q -> isStaleByTime now staleTime q = false ->
  cache (requests w pages) !! key = Some q.
Proof.
  revert w. induction pages as [| page pages IH]; intros w Hq Hfresh.
  - done.
  - apply IH; [| done]. by apply fetchIfStale_keeps.
Qed.

Lemma requests_fresh pages w page :
  page ∈ pages ->
  isStaleByTime now staleTime <$> cache (requests w pages) !! keyOf page
  = Some false.
Proof.
  revert w. induction pages as [| first pages IH]; intros w Hin.
  - by apply elem_of_nil in Hin.
  - apply elem_of_cons in Hin as [-> | Hin]; [| by apply IH].
    pose proof (fetchIfStale_fresh_after (keyOf first) (urlOf first) w)
      as Hafter.
    destruct (cache (fetchIfStale server now (keyOf first) (urlOf first)
                       staleTime w) !! keyOf first) as [q |] eqn:Hq;
      [| discriminate Hafter].
    change (Some (isStaleByTime now staleTime q) = Some false) in Hafter.
    injection Hafter as Hfresh.
    cbn [foldl].
    rewrite (requests_keep _ _ _ q) by done.
    exact (f_equal Some Hfresh).
Qed.

Lemma requests_fetched pages w page :
  (forall other, keyOf other = keyOf page -> urlOf other = urlOf page) ->
  page ∈ pages -> cache w !! keyOf page = None ->
  cache (requests w pages) !! keyOf page
  = Some (mkQueryState (server (urlOf page)) now false).
Proof.
  intros Hurl. revert w.
  induction pages as [| first pages IH]; intros w Hin Hnone.
  - by apply elem_of_nil in Hin.
  - cbn [foldl].
    destruct (decide (keyOf first = keyOf page)) as [Hsame | Hother].
    + apply requests_keep.
      * unfold prefetchQuery. rewrite fetchIfStale_absent by by rewrite Hsame.
        rewrite <- Hsame, fetch_lookup. by rewrite (Hurl first).
      * unfold isStaleByTime. cbn. apply bool_decide_eq_false_2. lia.
    + apply IH.
      * apply elem_of_cons in Hin as [-> | Hin]; done.
      * by apply fetchIfStale_keeps_none.
Qed.

Lemma requests_nothing_stale pages w :
  (forall page, page ∈ pages ->
     isStaleByTime now staleTime <$> cache w !! keyOf page = Some false) ->
  requests w pages = w.
Proof.
  induction pages as [| first pages IH]; intros Hfresh; [done |].
  cbn [foldl].
  assert (Hfirst : prefetchQuery server now (keyOf first) (urlOf first)
                     staleTime w = w).
  { specialize (Hfresh first ltac:(left)).
    destruct (cache w !! keyOf first) as [q |] eqn:Hq;
      [| discriminate Hfresh].
    change (Some (isStaleByTime now staleTime q) = Some false) in Hfresh.
    injection Hfresh as Hfresh.
    by apply (fetchIfStale_not_stale _ _ _ q). }
  rewrite Hfirst. apply IH. intros page Hin. apply Hfresh. by right.
Qed.

Lemma requests_network pages w :
  (exists urls,
     network (requests w pages) = network w ++ (GET <$> urls)
     /\ (length urls <= length pages)%nat
     /\ (forall url, url ∈ urls ->
           exists page, page ∈ pages /\ url = urlOf page))
  /\ caller (requests w pages) = caller w.
Proof.
  revert w. induction pages as [| first pages IH]; intros w.
  - split; [| done]. exists []. rewrite app_nil_r. split; [done |].
    split; [done |]. intros url Hin. by apply elem_of_nil in Hin.
  - cbn [foldl].
    destruct (IH (prefetchQuery server now (keyOf first) (urlOf first)
                    staleTime w)) as [(urls & Hnet & Hlen & Hfrom) Hcaller].
    destruct (fetchIfStale_network (keyOf first) (urlOf first) w)
      as [[Hsame | Hcall] Hcaller1].
    + split; [| by rewrite Hcaller]. exists urls.
      unfold prefetchQuery in *. rewrite Hnet, Hsame.
      split; [done |]. split; [cbn [length]; lia |].
      intros url Hin. destruct (Hfrom url Hin) as (page & Hpage & ->).
      exists page. split; [by right | done].
    + split; [| by rewrite Hcaller]. exists (urlOf first :: urls).
      unfold prefetchQuery in *. rewrite Hnet, Hcall, <- app_assoc.
      split; [done |]. split; [cbn [length]; lia |].
      intros url Hin. apply elem_of_cons in Hin as [-> | Hin].
      * exists first. split; [by left | done].
      * destruct (Hfrom url Hin) as (page & Hpage & ->).
        exists page. split; [by right | done].
Qed.

End Prefetching.

Section PrefetchHook.

Context {Employee NewEmployee CallerState : Type}.
Variable SERVER_PAGE_SIZE : Z.
Variable ENDPOINTS_employees : string.
Variable server : string -> GetEmployeesResponse Employee.

Implicit Types w : @World Employee NewEmployee CallerState.

(** X10.  Prefetching does its job: a page to prefetch whose server page
    was not in the cache is, for the 5000 ms that follow, handed out by
    [useEmployees] without any network call, as the slice of what the
    server answered for its server page.  All that [useEmployees] changes
    is the query it observes: the cache, the calls made and the state of
    the caller stay as the prefetch left them. *)
Theorem prefetched_page_is_ready (now dt currentPage pageSize : Z)
    (totalEmployees : Z) (queryOptions : QueryOptionsInterface) w
    (page : Z) :
  let w' :=
    usePrefetchEmployees SERVER_PAGE_SIZE ENDPOINTS_employees server now
      currentPage pageSize totalEmployees queryOptions w in
  let pageOnServerToFetch := pageOnServer SERVER_PAGE_SIZE page pageSize in
  page ∈ pagesToPrefetch currentPage (lastPage totalEmployees pageSize) ->
  cache w !! ("employees"%string, pageOnServerToFetch, queryOptions) = None ->
  0 <= dt < 5000 ->
  useEmployees SERVER_PAGE_SIZE ENDPOINTS_employees server (now + dt)
    page pageSize true queryOptions w'
  = (observe ("employees"%string, pageOnServerToFetch, queryOptions)
       (employeesUrl ENDPOINTS_employees pageOnServerToFetch queryOptions)
       true w',
     dataPaginated SERVER_PAGE_SIZE
       (Some (server (employeesUrl ENDPOINTS_employees pageOnServerToFetch
                        queryOptions)))
       page pageSize).
Proof.
  intros w' pageOnServerToFetch Hpage Hnone Hdt.
  pose proof (requests_fetched server now 5000 ltac:(lia)
                (fun page => ("employees"%string,
                              pageOnServer SERVER_PAGE_SIZE page pageSize,
                              queryOptions))
                (fun page => employeesUrl ENDPOINTS_employees
                               (pageOnServer SERVER_PAGE_SIZE page pageSize)
                               queryOptions)
                (pagesToPrefetch currentPage
                   (lastPage totalEmployees pageSize))
                w page) as Hentry.
  cbn beta in Hentry.
  specialize (Hentry ltac:(by intros other [= ->]) Hpage Hnone).
  fold (usePrefetchEmployees SERVER_PAGE_SIZE ENDPOINTS_employees server now
          currentPage pageSize totalEmployees queryOptions w) in Hentry.
  fold w' in Hentry. fold pageOnServerToFetch in Hentry.
  unfold useEmployees, useQuery. fold pageOnServerToFetch.
  rewrite (fetchIfStale_fresh server (now + dt) _ _ 5000 w' _ Hentry)
    by (cbn; (done || lia)).
  unfold observe at 2. cbn [cache]. by rewrite Hentry.
Qed.

(** X11.  Prefetching twice at the same instant is prefetching once: the
    second pass finds every server page it needs in the cache and neither
    calls the network nor changes the cache. *)
Theorem usePrefetchEmployees_idempotent (now currentPage pageSize : Z)
    (totalEmployees : Z) (queryOptions : QueryOptionsInterface) w :
  usePrefetchEmployees SERVER_PAGE_SIZE ENDPOINTS_employees server now
    currentPage pageSize totalEmployees queryOptions
    (usePrefetchEmployees SERVER_PAGE_SIZE ENDPOINTS_employees server now
       currentPage pageSize totalEmployees queryOptions w)
  = usePrefetchEmployees SERVER_PAGE_SIZE ENDPOINTS_employees server now
      currentPage pageSize totalEmployees queryOptions w.
Proof.
  unfold usePrefetchEmployees at 1.
  apply (requests_nothing_stale server now 5000
           (fun page => ("employees"%string,
                         pageOnServer SERVER_PAGE_SIZE page pageSize,
                         queryOptions))
           (fun page => employeesUrl ENDPOINTS_employees
                          (pageOnServer SERVER_PAGE_SIZE page pageSize)
                          queryOptions)).
  intros page Hpage.
  apply (requests_fresh server now 5000 ltac:(lia)
           (fun page => ("employees"%string,
                         pageOnServer SERVER_PAGE_SIZE page pageSize,
                         queryOptions))
           (fun page => employeesUrl ENDPOINTS_employees
                          (pageOnServer SERVER_PAGE_SIZE page pageSize)
                          queryOptions)).
  exact Hpage.
Qed.

(** X12.  For a current page between 0 and the last page, prefetching makes
    at most five network calls, each one the GET of the server page of a
    page to prefetch, and never touches the state of the caller. *)
Theorem usePrefetchEmployees_calls (now currentPage pageSize : Z)
    (totalEmployees : Z) (queryOptions : QueryOptionsInterface) w :
  let w' :=
    usePrefetchEmployees SERVER_PAGE_SIZE ENDPOINTS_employees server now
      currentPage pageSize totalEmployees queryOptions w in
  0 <= currentPage <= lastPage totalEmployees pageSize ->
  (exists urls,
     network w' = network w ++ (GET <$> urls)
     /\ Z.of_nat (length urls) <= 5
     /\ (forall url, url ∈ urls ->
           exists page,
             page ∈ pagesToPrefetch currentPage
                      (lastPage totalEmployees pageSize)
             /\ url = employeesUrl ENDPOINTS_employees
                        (pageOnServer SERVER_PAGE_SIZE page pageSize)
                        queryOptions))
  /\ caller w' = caller w.
Proof.
  intros w' Hcur.
  destruct (requests_network server now 5000
              (fun page => ("employees"%string,
                            pageOnServer SERVER_PAGE_SIZE page pageSize,
                            queryOptions))
              (fun page => employeesUrl ENDPOINTS_employees
                             (pageOnServer SERVER_PAGE_SIZE page pageSize)
                             queryOptions)
              (pagesToPrefetch currentPage
                 (lastPage totalEmployees pageSize)) w)
    as [(urls & Hnet & Hlen & Hfrom) Hcaller].
  split; [| exact Hcaller]. exists urls.
  split; [exact Hnet |]. split; [| exact Hfrom].
  pose proof (length_pagesToPrefetch currentPage
                (lastPage totalEmployees pageSize) Hcur).
  lia.
Qed.

(** X13.  On the first page of a list that fits in one client page, the
    prefetch hook does nothing at all. *)
Theorem usePrefetchEmployees_single_page (now pageSize : Z)
    (totalEmployees : Z) (queryOptions : QueryOptionsInterface) w :
  0 < pageSize -> totalEmployees <= pageSize ->
  usePrefetchEmployees SERVER_PAGE_SIZE ENDPOINTS_employees server now
    0 pageSize totalEmployees queryOptions w = w.
Proof.
  intros Hsize Htotal. unfold usePrefetchEmployees.
  assert (Hlast : lastPage totalEmployees pageSize <= 0).
  { unfold lastPage, Js.ceil_div. Z.div_mod_to_equations. nia. }
  replace (pagesToPrefetch 0 (lastPage totalEmployees pageSize))
    with (@nil Z); [done |].
  symmetry. apply elem_of_nil_inv. intros x.
  rewrite elem_of_pagesToPrefetch. lia.
Qed.

End PrefetchHook.

Lemma prefetched_page_is_ready_witness :
  let w0 : @World Z unit unit := mkWorld ∅ [] tt None in
  let options := mkQueryOptions [] (mkFilterModel None) in
  let server := fun _ : string => mkResponse (seqZ 0 25) 60 in
  let w' := usePrefetchEmployees 25 "/employees" server 1000 0 5 60
              options w0 in
  useEmployees 25 "/employees" server (1000 + 3000) 11 5 true options w'
  = (observe ("employees"%string, pageOnServer 25 11 5, options)
       (employeesUrl "/employees" (pageOnServer 25 11 5) options) true w',
     dataPaginated 25
       (Some (server (employeesUrl "/employees" (pageOnServer 25 11 5)
                        options)))
       11 5).
Proof.
  intros w0 options server.
  apply (prefetched_page_is_ready 25 "/employees" server 1000 3000 0 5 60
           options w0 11); [| done | lia].
  replace (lastPage 60 5) with 11 by done.
  rewrite elem_of_pagesToPrefetch. lia.
Defined.

Lemma usePrefetchEmployees_calls_witness :
  let w0 : @World Z unit unit := mkWorld ∅ [] tt None in
  let options := mkQueryOptions [] (mkFilterModel None) in
  let server := fun _ : string => mkResponse (seqZ 0 25) 60 in
  let w' := usePrefetchEmployees 25 "/employees" server 1000 0 5 60
              options w0 in
  (exists urls,
     network w' = network w0 ++ (GET <$> urls)
     /\ Z.of_nat (length urls) <= 5
     /\ (forall url, url ∈ urls ->
           exists page,
             page ∈ pagesToPrefetch 0 (lastPage 60 5)
             /\ url = employeesUrl "/employees" (pageOnServer 25 page 5)
                        options))
  /\ caller w' = caller w0.
Proof.
  intros w0 options server.
  apply (usePrefetchEmployees_calls 25 "/employees" server 1000 0 5 60
           options w0).
  vm_compute. split; discriminate.
Defined.

Lemma usePrefetchEmployees_single_page_witness :
  let w0 : @World Z unit unit := mkWorld ∅ [] tt None in
  let options := mkQueryOptions [] (mkFilterModel None) in
  let server := fun _ : string => mkResponse (seqZ 0 7) 7 in
  usePrefetchEmployees 25 "/employees" server 1000 0 10 7 options w0 = w0.
Proof.
  intros w0 options server.
  apply (usePrefetchEmployees_single_page 25 "/employees" server 1000 10 7
           options w0); lia.
Defined.

(** ** Client pages that share a server page *)

Section Sharing.

Context {Employee NewEmployee CallerState : Type}.
Variable SERVER_PAGE_SIZE : Z.
Variable ENDPOINTS_employees : string.
Variable server : string -> GetEmployeesResponse Employee.

Implicit Types w : @World Employee NewEmployee CallerState.

(** X14.  Client pages that lie in the same server page share one cache
    entry: once one of them was fetched, the others are, for the next
    5000 ms, sliced out of the same response without a network call. *)
Theorem server_page_is_shared (t0 dt p p' n : Z)
    (queryOptions : QueryOptionsInterface) w :
  let page := pageOnServer SERVER_PAGE_SIZE p n in
  let url := employeesUrl ENDPOINTS_employees page queryOptions in
  let first :=
    useEmployees SERVER_PAGE_SIZE ENDPOINTS_employees server
      t0 p n true queryOptions w in
  let other :=
    useEmployees SERVER_PAGE_SIZE ENDPOINTS_employees server
      (t0 + dt) p' n true queryOptions first.1 in
  pageOnServer SERVER_PAGE_SIZE p' n = page ->
  cache w !! ("employees"%string, page, queryOptions) = None ->
  0 <= dt < 5000 ->
  other.1 = first.1
  /\ network other.1 = network w ++ [GET url]
  /\ other.2 = dataPaginated SERVER_PAGE_SIZE (Some (server url)) p' n.
Proof.
  intros page url first other Hsame Hnone Hdt.
  assert (Hfirst : first.1
                   = observe ("employees"%string, page, queryOptions) url true
                       (fetch server t0
                          ("employees"%string, page, queryOptions) url w)).
  { unfold first, useEmployees, useQuery. cbn [fst].
    fold page. fold url. by rewrite fetchIfStale_absent. }
  assert (Hentry : cache first.1 !! ("employees"%string, page, queryOptions)
                   = Some (mkQueryState (server url) t0 false)).
  { rewrite Hfirst. cbn [observe cache]. apply fetch_lookup. }
  assert (Hkeep : fetchIfStale server (t0 + dt)
                    ("employees"%string, page, queryOptions) url 5000 first.1
                  = first.1).
  { eapply fetchIfStale_fresh; [exact Hentry | done | cbn; lia]. }
  unfold other, useEmployees, useQuery. rewrite Hsame.
  fold page. fold url. cbn [fst snd]. rewrite Hkeep.
  split; [reflexivity |]. split; [by rewrite Hfirst |].
  unfold observe at 1. cbn [cache]. by rewrite Hentry.
Qed.

End Sharing.

Lemma server_page_is_shared_witness :
  let w0 : @World Z unit unit := mkWorld ∅ [] tt None in
  let options := mkQueryOptions [] (mkFilterModel None) in
  let server := fun _ : string => mkResponse (seqZ 0 25) 60 in
  let url := employeesUrl "/employees" (pageOnServer 25 0 5) options in
  let first := useEmployees 25 "/employees" server 1000 0 5 true options w0 in
  let other :=
    useEmployees 25 "/employees" server (1000 + 400) 3 5 true options
      first.1 in
  other.1 = first.1
  /\ network other.1 = network w0 ++ [GET url]
  /\ other.2 = dataPaginated 25 (Some (server url)) 3 5.
Proof.
  intros w0 options server.
  apply (server_page_is_shared 25 "/employees" server 1000 400 0 3 5
           options w0); [done | done | lia].
Defined.

(** ** The filter segment of the path *)

Lemma replaceAll_free (a b : ascii) (s : string) :
  a <> b -> a ∉ list_ascii_of_string (replaceAll a b s).
Proof.
  intros Hab.
  induction s as [| c rest IH]; cbn [replaceAll list_ascii_of_string].
  - apply not_elem_of_nil.
  - apply not_elem_of_cons. split; [| done].
    destruct (Ascii.eqb c a) eqn:Hc; [done |].
    apply Ascii.eqb_neq in Hc. congruence.
Qed.

(** X15.  Whatever the quick filter holds, the last segment of the request
    path is not empty and has no ['/'] in it: the filter can neither leave
    the path without its last segment nor add segments to it. *)
Theorem filterSegment_is_a_segment (queryOptions : QueryOptionsInterface) :
  filterSegment (filtersOf queryOptions) <> EmptyString
  /\ ("/"%char
        ∉ list_ascii_of_string (filterSegment (filtersOf queryOptions))).
Proof.
  assert (HnoFilter : "/"%char ∉ list_ascii_of_string "noFilter").
  { cbn. rewrite !not_elem_of_cons. repeat split; try done.
    apply not_elem_of_nil. }
  unfold filtersOf, filterSegment.
  destruct (quickFilterValues (filterModel queryOptions)) as [tokens |];
    cbn [fmap option_fmap option_map Js.string_or_else]; [| done].
  rewrite (split_join_replaceAll "/" "-").
  pose proof (replaceAll_free "/" "-" (Js.join "_" tokens) ltac:(done))
    as Hfree.
  destruct (replaceAll "/" "-" (Js.join "_" tokens)); done.
Qed.

(** ** The footer and the rows on display *)

(** X16.  On a page that has rows, the footer announces the span of rows
    that single-tier pagination puts on that page: it starts one after
    the rows of the pages before and has as many rows as the window. *)
Theorem ShowEntries_span {A} (full : list A) (page rowsPerPage : Z) :
  0 < rowsPerPage -> 0 <= page ->
  page * rowsPerPage < Z.of_nat (length full) ->
  ShowEntries (Z.of_nat (length full)) page rowsPerPage
  = "Showing " +:+ pretty (page * rowsPerPage + 1)
      +:+ " to "
      +:+ pretty (page * rowsPerPage
                  + Z.of_nat (length (naiveWindow full page rowsPerPage)))
      +:+ " of " +:+ pretty (Z.of_nat (length full)) +:+ " entries".
Proof.
  intros Hsize Hpage Hrows. unfold ShowEntries.
  rewrite decide_False by lia.
  replace (page * rowsPerPage
           + Z.of_nat (length (naiveWindow full page rowsPerPage)))
    with (lastRow (Z.of_nat (length full)) page rowsPerPage); [done |].
  unfold lastRow, naiveWindow. rewrite length_take, length_drop.
  case_decide; lia.
Qed.

Lemma ShowEntries_span_witness :
  ShowEntries (Z.of_nat (length (seqZ 0 42))) 4 10
  = "Showing " +:+ pretty (4 * 10 + 1)
      +:+ " to "
      +:+ pretty (4 * 10 + Z.of_nat (length (naiveWindow (seqZ 0 42) 4 10)))
      +:+ " of " +:+ pretty (Z.of_nat (length (seqZ 0 42))) +:+ " entries".
Proof.
  apply (ShowEntries_span (seqZ 0 42) 4 10); [lia | lia | by vm_compute].
Defined.

(** ** Mutations and the list on display *)

Section AfterMutation.

Context {Employee NewEmployee AxiosResponse Err CallerState : Type}.
Variable employee_id : Employee -> string.
Variable SERVER_PAGE_SIZE : Z.
Variable ENDPOINTS_employees : string.
Variable server : string -> GetEmployeesResponse Employee.

Implicit Types w : @World Employee NewEmployee CallerState.

(** What a successful mutation leaves in the cache decides what
    [useEmployees] does next: a page that was cached and is not the one on
    display is fetched anew, whatever its age; the page on display was
    fetched anew by the invalidation and is served from the cache for the
    5000 ms that follow. *)
Lemma useEmployees_after_success (now : Z) w w' :
  (forall page queryOptions,
     cache w' !! ("employees"%string, page, queryOptions)
     = match observed w with
       | Some (key, url) =>
           if decide (key = ("employees"%string, page, queryOptions))
           then Some (mkQueryState (server url) now false)
           else (fun q => mkQueryState (queryData q) (dataUpdatedAt q) true)
                  <$> cache w !! ("employees"%string, page, queryOptions)
       | None =>
           (fun q => mkQueryState (queryData q) (dataUpdatedAt q) true)
             <$> cache w !! ("employees"%string, page, queryOptions)
       end) ->
  (forall (t p n : Z) (queryOptions : QueryOptionsInterface),
     let page := pageOnServer SERVER_PAGE_SIZE p n in
     let url := employeesUrl ENDPOINTS_employees page queryOptions in
     is_Some (cache w !! ("employees"%string, page, queryOptions)) ->
     fst <$> observed w <> Some ("employees"%string, page, queryOptions) ->
     network (useEmployees SERVER_PAGE_SIZE ENDPOINTS_employees server t p n
                true queryOptions w').1
     = network w' ++ [GET url]
     /\ (useEmployees SERVER_PAGE_SIZE ENDPOINTS_employees server t p n
           true queryOptions w').2
        = dataPaginated SERVER_PAGE_SIZE (Some (server url)) p n)
  /\ (forall (dt p n : Z) (queryOptions : QueryOptionsInterface),
        let page := pageOnServer SERVER_PAGE_SIZE p n in
        let url := employeesUrl ENDPOINTS_employees page queryOptions in
        observed w = Some (("employees"%string, page, queryOptions), url) ->
        0 <= dt < 5000 ->
        network (useEmployees SERVER_PAGE_SIZE ENDPOINTS_employees server
                   (now + dt) p n true queryOptions w').1
        = network w'
        /\ (useEmployees SERVER_PAGE_SIZE ENDPOINTS_employees server
              (now + dt) p n true queryOptions w').2
           = dataPaginated SERVER_PAGE_SIZE (Some (server url)) p n).
Proof.
  intros Hcache. split.
  - intros t p n queryOptions page url [q Hq] Hother.
    specialize (Hcache page queryOptions). rewrite Hq in Hcache.
    assert (Hmarked : cache w' !! ("employees"%string, page, queryOptions)
                      = Some (mkQueryState (queryData q) (dataUpdatedAt q)
                                true)).
    { destruct (observed w) as [[key path] |]; [| done].
      rewrite decide_False in Hcache; [done |].
      intros ->. by apply Hother. }
    unfold useEmployees, useQuery. fold page. fold url.
    cbn [fst snd observe network cache].
    rewrite (fetchIfStale_invalidated server t _ url 5000 w' _ Hmarked)
      by done.
    by rewrite fetch_lookup.
  - intros dt p n queryOptions page url Hshown Hdt.
    specialize (Hcache page queryOptions). rewrite Hshown in Hcache.
    rewrite decide_True in Hcache by done.
    unfold useEmployees, useQuery. fold page. fold url.
    cbn [fst snd observe network cache].
    rewrite (fetchIfStale_fresh server (now + dt) _ url 5000 w' _ Hcache)
      by (cbn; (done || lia)).
    by rewrite Hcache.
Qed.

(** What [useEmployees] hands out depends on the cache alone. *)
Lemma useEmployees_cache_only (now p n : Z) (enabled : bool)
    (queryOptions : QueryOptionsInterface) w w' :
  cache w' = cache w ->
  (useEmployees SERVER_PAGE_SIZE ENDPOINTS_employees server now p n
     enabled queryOptions w').2
  = (useEmployees SERVER_PAGE_SIZE ENDPOINTS_employees server now p n
       enabled queryOptions w).2.
Proof.
  intros Hcache. unfold useEmployees. cbn [fst snd].
  set (key := ("employees"%string, _, queryOptions)).
  set (url := employeesUrl _ _ _).
  assert (Hsame : cache (useQuery server now key url 5000 enabled w')
                  = cache (useQuery server now key url 5000 enabled w)).
  { unfold useQuery, fetchIfStale, observe. cbn [cache].
    destruct enabled; [| done].
    rewrite Hcache.
    destruct (cache w !! key) as [q |];
      [destruct (isStaleByTime now 5000 q) |];
      unfold fetch; cbn [cache]; by rewrite ?Hcache. }
  by rewrite Hsame.
Qed.

(** X17.  After a create, an update or a delete that succeeded at time
    [now]: a page of the list that was in the cache and is not the one on
    display is fetched anew, with one GET, the next time [useEmployees]
    asks for it, however recent it was; the page on display, which the
    invalidation has fetched anew, is served by [useEmployees] without a
    further call for the 5000 ms that follow; in both cases the grid gets
    the slice of the new response.  After a mutation that failed,
    [useEmployees] hands out what it would have without the mutation. *)
Theorem mutations_and_the_list
    (createOk : Callback AxiosResponse) (deleteOk : Callback string)
    (updateOk : Callback Employee) (failed : Callback Err)
    (newEmployee : NewEmployee) (id : string) (employee : Employee)
    (data : AxiosResponse) (err : Err) (later : nat -> Outcome)
    (now : Z) w :
  let succeeds k := match k with O => Fulfilled data | S k' => later k' end in
  let fails k := match k with O => Rejected err | S k' => later k' end in
  let fresh p n queryOptions :=
    dataPaginated SERVER_PAGE_SIZE
      (Some (server (employeesUrl ENDPOINTS_employees
                       (pageOnServer SERVER_PAGE_SIZE p n) queryOptions)))
      p n in
  let afterSuccess (w' : World) :=
    (forall (t p n : Z) (queryOptions : QueryOptionsInterface),
       is_Some (cache w !! ("employees"%string,
                            pageOnServer SERVER_PAGE_SIZE p n,
                            queryOptions)) ->
       fst <$> observed w
       <> Some ("employees"%string, pageOnServer SERVER_PAGE_SIZE p n,
                queryOptions) ->
       network (useEmployees SERVER_PAGE_SIZE ENDPOINTS_employees server t
                  p n true queryOptions w').1
       = network w'
           ++ [GET (employeesUrl ENDPOINTS_employees
                      (pageOnServer SERVER_PAGE_SIZE p n) queryOptions)]
       /\ (useEmployees SERVER_PAGE_SIZE ENDPOINTS_employees server t
             p n true queryOptions w').2
          = fresh p n queryOptions)
    /\ (forall (dt p n : Z) (queryOptions : QueryOptionsInterface),
          observed w
          = Some (("employees"%string, pageOnServer SERVER_PAGE_SIZE p n,
                   queryOptions),
                  employeesUrl ENDPOINTS_employees
                    (pageOnServer SERVER_PAGE_SIZE p n) queryOptions) ->
          0 <= dt < 5000 ->
          network (useEmployees SERVER_PAGE_SIZE ENDPOINTS_employees server
                     (now + dt) p n true queryOptions w').1
          = network w'
          /\ (useEmployees SERVER_PAGE_SIZE ENDPOINTS_employees server
                (now + dt) p n true queryOptions w').2
             = fresh p n queryOptions) in
  let asBefore (w' : World) :=
    forall (t p n : Z) (enabled : bool)
           (queryOptions : QueryOptionsInterface),
      (useEmployees SERVER_PAGE_SIZE ENDPOINTS_employees server t p n
         enabled queryOptions w').2
      = (useEmployees SERVER_PAGE_SIZE ENDPOINTS_employees server t p n
           enabled queryOptions w).2 in
  afterSuccess
    (mutate (useCreateEmployee server createOk failed) newEmployee succeeds
       now w)
  /\ asBefore
       (mutate (useCreateEmployee server createOk failed) newEmployee fails
          now w)
  /\ afterSuccess
       (mutate (useUpdateEmployee employee_id server updateOk failed)
          employee succeeds now w)
  /\ asBefore
       (mutate (useUpdateEmployee employee_id server updateOk failed)
          employee fails now w)
  /\ afterSuccess
       (mutate (useDeleteEmployee server deleteOk failed) id succeeds now w)
  /\ asBefore
       (mutate (useDeleteEmployee server deleteOk failed) id fails now w).
Proof.
  intros succeeds fails fresh afterSuccess asBefore.
  unfold afterSuccess, asBefore, fresh, succeeds, fails.
  split.
  { apply (useEmployees_after_success now w).
    apply (mutate_fulfilled server (fun e => POST "/employees" e)
             (fun d _ => d) createOk failed). }
  split.
  { intros t p n enabled queryOptions. apply useEmployees_cache_only.
    by apply (mutate_rejected (useCreateEmployee server createOk failed)
                failed). }
  split.
  { apply (useEmployees_after_success now w).
    apply (mutate_fulfilled server
             (fun e => PUT ("/employees/" +:+ employee_id e) e)
             (fun _ x => x) updateOk failed). }
  split.
  { intros t p n enabled queryOptions. apply useEmployees_cache_only.
    by apply (mutate_rejected
                (useUpdateEmployee employee_id server updateOk failed)
                failed). }
  split.
  { apply (useEmployees_after_success now w).
    apply (mutate_fulfilled server (fun i => DELETE ("/employees/" +:+ i))
             (fun _ x => x) deleteOk failed). }
  intros t p n enabled queryOptions. apply useEmployees_cache_only.
  by apply (mutate_rejected (useDeleteEmployee server deleteOk failed)
              failed).
Qed.

End AfterMutation.

Lemma mutations_and_the_list_witness :
  let options := mkQueryOptions [] (mkFilterModel None) in
  let server := fun _ : string => mkResponse (seqZ 0 25) 60 in
  let other := employeesUrl "/employees" (pageOnServer 25 3 10) options in
  let w0 : @World Z unit unit :=
    (useEmployees 25 "/employees" server 1000 0 10 true options
       (fetch server 900 ("employees"%string, pageOnServer 25 3 10, options)
          other (mkWorld ∅ [] tt None))).1 in
  let w' :=
    mutate (useCreateEmployee (AxiosResponse := unit) (Err := unit)
              server None None)
      tt (fun k => match k with O => Fulfilled tt | S _ => Fulfilled tt end)
      2000 w0 in
  network (useEmployees 25 "/employees" server 2100 3 10 true options w').1
  = network w' ++ [GET other]
  /\ network (useEmployees 25 "/employees" server (2000 + 100) 0 10 true
                options w').1
     = network w'.
Proof.
  intros options server other w0 w'.
  destruct (mutations_and_the_list (fun z : Z => pretty z) 25 "/employees"
              server None None None None tt "7"%string 7 tt tt
              (fun _ => Fulfilled tt) 2000 w0)
    as ((Hother & Hshown) & _).
  split.
  - apply Hother.
    + unfold w0, useEmployees, useQuery. cbn [fst observe cache].
      rewrite (fetchIfStale_absent server); [| by vm_compute].
      rewrite fetch_lookup_ne by (by vm_compute).
      rewrite fetch_lookup. by eexists.
    + by vm_compute.
  - apply Hshown; [reflexivity | lia].
Defined.

(** ** What the encoding of the filter cannot tell apart *)

Lemma replaceAll_idemp (a b : ascii) (s : string) :
  a <> b -> replaceAll a b (replaceAll a b s) = replaceAll a b s.
Proof.
  intros Hab. induction s as [| c rest IH]; cbn [replaceAll]; [done |].
  rewrite IH. f_equal.
  destruct (Ascii.eqb c a) eqn:Hc.
  - destruct (Ascii.eqb b a) eqn:Hb; [| done].
    apply Ascii.eqb_eq in Hb. congruence.
  - by rewrite Hc.
Qed.

(** X18.  The filter string does not tell a ['/'] from a ['-'] in a token,
    nor several tokens from the one token that has them joined by ['_']:
    in both cases [fetchEmployees] is handed the same string. *)
Theorem filtersOf_collisions (sorting : list GridSortItem)
    (tokens : list string) :
  filtersOf (mkQueryOptions sorting
               (mkFilterModel (Some (replaceAll "/" "-" <$> tokens))))
  = filtersOf (mkQueryOptions sorting (mkFilterModel (Some tokens)))
  /\ filtersOf (mkQueryOptions sorting
                  (mkFilterModel (Some [Js.join "_" tokens])))
     = filtersOf (mkQueryOptions sorting (mkFilterModel (Some tokens))).
Proof.
  unfold filtersOf.
  cbn [filterModel quickFilterValues fmap option_fmap option_map].
  rewrite !(split_join_replaceAll "/" "-"). split; [| done].
  f_equal. rewrite <- replaceAll_join. by apply replaceAll_idemp.
Qed.

(** ** The pages to prefetch, for any current page *)

(** X19.  Whatever the current page, be it outside the list, the pages to
    prefetch have no page twice and are all between 0 and the last page:
    no request is ever made for a page that does not exist. *)
Theorem pagesToPrefetch_exist (currentPage last : Z) :
  NoDup (pagesToPrefetch currentPage last)
  /\ (forall x, x ∈ pagesToPrefetch currentPage last ->
                0 <= x <= last /\ x <> currentPage).
Proof.
  split; [apply NoDup_pagesToPrefetch |].
  intros x. rewrite elem_of_pagesToPrefetch. lia.
Qed.
